(** * DocChat front end: a shallow embedding of the React pages

    The pages of [frontend/app] are React function components: each keeps
    its state in [useState] cells and changes it from event handlers, some
    of which await a [fetch].  A component is embedded here as a record of
    its state cells, every handler as a function on that record, and every
    awaited [fetch] as an explicit outcome handed to the continuation of
    the handler.  JavaScript values that come from the network ([any] in
    the source) are kept as parsed JSON values with the language's
    truthiness, so that guards such as [!conversationId] mean what they
    mean at run time.

    Strings are sequences of code units below 256 (Rocq's [string]); numbers
    are rationals, which covers every finite double. *)

From Stdlib Require Import List String Ascii ZArith QArith Bool Lia.
From Stdlib Require Import DecimalString DecimalZ DecimalPos.
From Equations Require Import Equations.
Import ListNotations.
Local Open Scope string_scope.
Local Open Scope Z_scope.

(** ** JavaScript values *)

Module JS.

(** A parsed JSON value.  An object is the list of its own properties; a
    property is read at its first binding. *)
#[warnings="-register-all"]
Inductive json : Type :=
| JNull
| JBool (b : bool)
| JNum (q : Q)
| JStr (s : string)
| JArr (items : list json)
| JObj (props : list (string * json)).

(** A JavaScript value as the pages see it: [None] is [undefined]. *)
Definition jsval : Type := option json.

Definition undefined : jsval := None.
Definition null : jsval := Some JNull.
Definition str (s : string) : jsval := Some (JStr s).
Definition num (z : Z) : jsval := Some (JNum (inject_Z z)).

(** ToBoolean: [undefined], [null], [false], [0] and the empty string are
    falsy, everything else is truthy. *)
Definition truthy (v : jsval) : bool :=
  match v with
  | None => false
  | Some JNull => false
  | Some (JBool b) => b
  | Some (JNum q) => negb (Qnum q =? 0)
  | Some (JStr s) => negb (s =? "")%string
  | Some (JArr _) => true
  | Some (JObj _) => true
  end.

(** [a || b] *)
Definition or (a b : jsval) : jsval := if truthy a then a else b.

(** [v === 'lit'] for a string literal. *)
Definition is_str (v : jsval) (lit : string) : bool :=
  match v with
  | Some (JStr s) => (s =? lit)%string
  | _ => false
  end.

Fixpoint assoc (k : string) (props : list (string * json)) : jsval :=
  match props with
  | [] => None
  | (k', v) :: rest => if (k' =? k)%string then Some v else assoc k rest
  end.

(** [data.k] for a parsed JSON value [data] and a key that is neither
    [length] nor an index: reading a property of [null] throws a TypeError
    ([None] here); a primitive or an array has no such property. *)
Definition prop (data : json) (k : string) : option jsval :=
  match data with
  | JNull => None
  | JObj props => Some (assoc k props)
  | _ => Some undefined
  end.

(** What [JSON.stringify] writes for an object literal: a property whose
    value is [undefined] is left out. *)
Fixpoint stringify_props (fields : list (string * jsval)) : list (string * json) :=
  match fields with
  | [] => []
  | (k, Some v) :: rest => (k, v) :: stringify_props rest
  | (_, None) :: rest => stringify_props rest
  end.

(** *** Strings *)

(** White space and line terminators among the code units below 256:
    TAB, LF, VT, FF, CR, SP and NBSP. *)
Definition is_space (c : ascii) : bool :=
  let n := nat_of_ascii c in
  ((9 <=? n) && (n <=? 13) || (n =? 32) || (n =? 160))%nat.

Fixpoint trim_start (s : string) : string :=
  match s with
  | String c rest => if is_space c then trim_start rest else s
  | EmptyString => EmptyString
  end.

(** Drops trailing white space: a character stays when something other
    than white space follows it or it is not white space itself. *)
Fixpoint trim_end (s : string) : string :=
  match s with
  | EmptyString => EmptyString
  | String c rest =>
      match trim_end rest with
      | EmptyString => if is_space c then EmptyString else String c EmptyString
      | kept => String c kept
      end
  end.

(** [s.trim()] *)
Definition trim (s : string) : string := trim_end (trim_start s).

(** [!s] for a string. *)
Definition str_falsy (s : string) : bool := (s =? "")%string.

(** [s.toLowerCase()] on code units below 256 that are ASCII letters; no
    other character lower-cases to one of ['.'], ['p'], ['d'], ['f']. *)
Definition lower_char (c : ascii) : ascii :=
  let n := nat_of_ascii c in
  if ((65 <=? n) && (n <=? 90))%nat then ascii_of_nat (n + 32) else c.

Fixpoint toLowerCase (s : string) : string :=
  match s with
  | EmptyString => EmptyString
  | String c rest => String (lower_char c) (toLowerCase rest)
  end.

(** [s.endsWith(suffix)] *)
Definition endsWith (s suffix : string) : bool :=
  let n := String.length s in
  let m := String.length suffix in
  ((m <=? n)%nat && (substring (n - m) m s =? suffix)%string).

(** *** parseInt *)

Definition digit_value (c : ascii) : option Z :=
  let n := Z.of_nat (nat_of_ascii c) in
  if (48 <=? n) && (n <=? 57) then Some (n - 48)
  else if (97 <=? n) && (n <=? 122) then Some (n - 87)
  else if (65 <=? n) && (n <=? 90) then Some (n - 55)
  else None.

(** Reads the longest prefix of digits of the radix; [None] when there is
    no digit at all. *)
Fixpoint parse_digits (radix : Z) (acc : option Z) (s : string) : option Z :=
  match s with
  | EmptyString => acc
  | String c rest =>
      match digit_value c with
      | Some d =>
          if d <? radix
          then parse_digits radix
                 (Some (match acc with Some a => a * radix + d | None => d end)) rest
          else acc
      | None => acc
      end
  end.

Definition strip_hex_prefix (s : string) : option string :=
  match s with
  | String "0" (String "x" rest) => Some rest
  | String "0" (String "X" rest) => Some rest
  | _ => None
  end.

(** [parseInt(s)] with no radix argument: leading white space, a sign, an
    optional [0x] selecting radix 16, then digits.  [None] is [NaN]. *)
Definition parseInt (s : string) : option Z :=
  let s1 := trim_start s in
  let '(sign, s2) :=
    match s1 with
    | String "-" rest => (-1, rest)
    | String "+" rest => (1, rest)
    | _ => (1, s1)
    end in
  let '(radix, s3) :=
    match strip_hex_prefix s2 with
    | Some rest => (16, rest)
    | None => (10, s2)
    end in
  option_map (fun v => sign * v) (parse_digits radix None s3).

(** A number as [JSON.stringify] writes it: [NaN] becomes [null]. *)
Definition number_json (n : option Z) : json :=
  match n with
  | Some z => JNum (inject_Z z)
  | None => JNull
  end.

(** Every character of the string is white space. *)
Fixpoint all_space (s : string) : bool :=
  match s with
  | EmptyString => true
  | String c rest => is_space c && all_space rest
  end.

(** [s.startsWith(p)] *)
Definition startsWith (s p : string) : bool := String.prefix p s.

(** *** Numbers as text *)

(** The text of a number that is an integer (of magnitude below 1e21):
    its decimal digits, with a minus sign when negative. *)
Definition integer_string (z : Z) : string :=
  NilZero.string_of_int (Z.to_int z).

(** The integer nearest to [num / den] for [0 <= num] and [0 < den], the
    larger one when two are as near. *)
Definition nearest (num den : Z) : Z := (2 * num + den) / (2 * den).

Fixpoint zeros (n : nat) : string :=
  match n with
  | O => EmptyString
  | S k => String "0" (zeros k)
  end.

(** The digits of [n] written with [digits] decimals: [1536] with one
    decimal is [153.6]. *)
Definition decimals (digits : nat) (n : Z) : string :=
  let unit := 10 ^ Z.of_nat digits in
  let frac := integer_string (n mod unit) in
  integer_string (n / unit) ++ "."
    ++ zeros (digits - String.length frac) ++ frac.

(** [(num / den).toFixed(digits)] for integers [0 <= num] and [0 < den]
    with [den] a power of two (the quotient is then an exact double) and
    [1 <= digits]: the nearest multiple of [10^-digits], the larger one on
    a tie. *)
Definition toFixed (num den : Z) (digits : nat) : string :=
  decimals digits (nearest (num * 10 ^ Z.of_nat digits) den).

End JS.

(** ** The network *)

(** How an awaited [fetch(...)] followed by [response.json()] ends: the
    fetch rejects, or a response arrives with a status and a body that is
    JSON ([Some]) or not ([None], so that [response.json()] rejects). *)
Inductive FetchOutcome : Type :=
| NetworkError
| Responded (status : Z) (body : option JS.json).

(** [response.ok] *)
Definition response_ok (status : Z) : bool := (200 <=? status) && (status <=? 299).

(** A request as handed to [fetch]: the body is the value that
    [JSON.stringify] serialises. *)
Record Request : Type := mkRequest {
  req_url : string;
  req_method : string;
  req_body : JS.json
}.

(** [Date.now()] and [new Date().toISOString()] at one instant. *)
Record Clock : Type := mkClock {
  now : Z;
  iso : string
}.

(** ** The chat page ([ChatContent]) *)

Module Chat.
Import JS.

(** [interface Message].  [sources] is [undefined] on the messages the page
    builds itself; [id] and [content] of an assistant message are whatever
    the response carries. *)
Record Message : Type := mkMessage {
  id : jsval;
  role : string;
  content : jsval;
  sources : jsval;
  created_at : string
}.

(** The [useState] cells that [sendMessage] reads or writes. *)
Record State : Type := mkState {
  messages : list Message;
  input : string;
  loading : bool;
  conversationId : jsval
}.

(** The state of a freshly mounted page. *)
Definition initial : State :=
  {| messages := []; input := ""; loading := false; conversationId := null |}.

(** [searchParams.get('document')]: [None] is [null]. *)
Definition DocumentId : Type := option string.

(** [documentId] used as a condition: [null] and the empty string are
    falsy. *)
Definition has_document (documentId : DocumentId) : bool :=
  match documentId with
  | Some d => negb (str_falsy d)
  | None => false
  end.

Definition setInput (v : string) (st : State) : State :=
  {| messages := messages st; input := v; loading := loading st;
     conversationId := conversationId st |}.

Definition setLoading (v : bool) (st : State) : State :=
  {| messages := messages st; input := input st; loading := v;
     conversationId := conversationId st |}.

Definition setConversationId (v : jsval) (st : State) : State :=
  {| messages := messages st; input := input st; loading := loading st;
     conversationId := v |}.

(** [setMessages(prev => [...prev, m])] *)
Definition appendMessage (m : Message) (st : State) : State :=
  {| messages := messages st ++ [m]; input := input st; loading := loading st;
     conversationId := conversationId st |}.

Definition error_text : string :=
  "Sorry, I encountered an error processing your message. Please try again.".

Definition tempUserMessage (userMessage : string) (clk : Clock) : Message :=
  {| id := num (now clk); role := "user"; content := str userMessage;
     sources := undefined; created_at := iso clk |}.

Definition errorMessage (clk : Clock) : Message :=
  {| id := num (now clk); role := "assistant"; content := str error_text;
     sources := undefined; created_at := iso clk |}.

(** The body of the POST to [/api/chat]. *)
Definition chat_body (userMessage : string) (cid : jsval) (documentId : DocumentId) : json :=
  JObj (stringify_props
    [ ("message", str userMessage);
      ("conversation_id", cid);
      ("document_id",
        Some (match documentId with
              | Some d => if str_falsy d then JNull else number_json (parseInt d)
              | None => JNull
              end)) ]).

Definition chat_request (userMessage : string) (cid : jsval) (documentId : DocumentId) : Request :=
  {| req_url := "http://localhost:8000/api/chat"; req_method := "POST";
     req_body := chat_body userMessage cid documentId |}.

(** [sendMessage] up to its [await fetch(...)].  [st] is the state of the
    render whose closure runs.  [None]: the guard returned at once.
    Otherwise the request handed to [fetch] and the state after the three
    setters. *)
Definition sendMessage_start (documentId : DocumentId) (clk : Clock) (st : State)
  : option (Request * State) :=
  if str_falsy (trim (input st)) || loading st then None
  else
    let userMessage := input st in
    Some (chat_request userMessage (conversationId st) documentId,
          appendMessage (tempUserMessage userMessage clk)
            (setLoading true (setInput "" st))).

(** The [try] block after the fetch has resolved to parsed [data], with
    [cid] the [conversationId] the closure captured.  [None]: a TypeError
    was thrown (reading a property of [null]) before any setter ran. *)
Definition on_data (cid : jsval) (clk : Clock) (data : json) (st : State) : option State :=
  match prop data "conversation_id", prop data "message_id",
        prop data "answer", prop data "sources" with
  | Some conversation_id, Some message_id, Some answer, Some srcs =>
      let st1 := if negb (truthy cid) then setConversationId conversation_id st else st in
      let assistantMessage :=
        {| id := message_id; role := "assistant"; content := answer;
           sources := srcs; created_at := iso clk |} in
      Some (appendMessage assistantMessage st1)
  | _, _, _, _ => None
  end.

(** [sendMessage] from the point where the awaited fetch settles: the
    [try] block, the [catch] and the [finally]. *)
Definition sendMessage_finish (cid : jsval) (clk : Clock) (out : FetchOutcome) (st : State)
  : State :=
  let caught := appendMessage (errorMessage clk) st in
  let after :=
    match out with
    | NetworkError => caught
    | Responded _ None => caught
    | Responded _ (Some data) =>
        match on_data cid clk data st with
        | Some st' => st'
        | None => caught
        end
    end in
  setLoading false after.

(** The guard of [sendMessage] lets the call through. *)
Definition sendable (st : State) : Prop :=
  trim (input st) <> "" /\ loading st = false.

(** One whole call of [sendMessage] with nothing else happening while the
    fetch is awaited: the request issued, if any, and the final state. *)
Definition sendMessage (documentId : DocumentId) (clk1 : Clock) (out : FetchOutcome)
    (clk2 : Clock) (st : State) : option Request * State :=
  match sendMessage_start documentId clk1 st with
  | None => (None, st)
  | Some (req, st1) => (Some req, sendMessage_finish (conversationId st) clk2 out st1)
  end.

(** *** Rendering a source citation *)

(** [interface Source] as it arrives in [data.sources]: every field is
    whatever the response carries. *)
Record Source : Type := mkSource {
  type : jsval;
  src_content : jsval;
  url : jsval;
  caption : jsval;
  page : jsval;
  score : jsval;
  data : jsval
}.

(** The value of a JSX attribute. *)
Inductive Attr : Type :=
| AStr (s : string)                      (* a string literal *)
| AVal (v : jsval)                       (* [{expr}] *)
| AIndex (n : nat)                       (* [{idx}] *)
| ATemplate (prefix : string) (v : jsval). (* a template literal ending in [${v}] *)

(** A JSX tree. *)
#[warnings="-register-all"]
Inductive Jsx : Type :=
| Text (s : string)                      (* literal text *)
| Expr (v : jsval)                       (* [{v}] *)
| Percent (v : jsval)                    (* [{(v * 100).toFixed(0)}] *)
| Elem (tag : string) (attrs : list (string * Attr)) (children : list Jsx).

(** [{v && element}]: a falsy [v] is itself the child. *)
Definition and_then (v : jsval) (element : Jsx) : Jsx :=
  if truthy v then element else Expr v.

Definition card_header (icon : string) (label : Jsx) (extras : list Jsx) : Jsx :=
  Elem "div"
    [("className", AStr "flex items-center gap-2 text-xs text-[var(--text-muted)] mb-2")]
    (Elem icon [("className", AStr "w-3 h-3")] [] :: Elem "span" [] [label] :: extras).

(** [{source.page && <span>...</span>}]; the bullet that opens the span is
    written [*], there being no such code unit below 256. *)
Definition page_span (source : Source) : Jsx :=
  and_then (page source) (Elem "span" [] [Text "* Page "; Expr (page source)]).

(** [renderSource(source, idx)]; [None] is [null]. *)
Definition renderSource (source : Source) (idx : nat) : option Jsx :=
  if is_str (type source) "image" then
    Some (Elem "div" [("key", AIndex idx); ("className", AStr "source-card")]
      [ card_header "Image" (Expr (or (caption source) (str "Image"))) [page_span source];
        Elem "img"
          [ ("src", ATemplate "http://localhost:8000" (url source));
            ("alt", AVal (or (caption source) (str "Document image")));
            ("className", AStr "w-full") ] [] ])
  else if is_str (type source) "table" then
    Some (Elem "div" [("key", AIndex idx); ("className", AStr "source-card")]
      [ card_header "Table" (Expr (or (caption source) (str "Table"))) [page_span source];
        Elem "img"
          [ ("src", ATemplate "http://localhost:8000" (url source));
            ("alt", AVal (or (caption source) (str "Document table")));
            ("className", AStr "w-full") ] [] ])
  else if is_str (type source) "text" then
    Some (Elem "div" [("key", AIndex idx); ("className", AStr "source-card")]
      [ card_header "FileText" (Text "Source")
          [ page_span source;
            and_then (score source)
              (Elem "span" [] [Text "* "; Percent (score source); Text "% match"]) ];
        Elem "p" [("className", AStr "text-sm text-[var(--text-secondary)] line-clamp-3")]
          [Expr (src_content source)] ])
  else None.

(** *** A session: the user at the page *)

Definition suggestions : list string :=
  [ "What is this document about?";
    "Show me the main figures";
    "Summarize the key findings";
    "What tables are in this document?" ].

(** [disabled] of the textarea and of the send button. *)
Definition textarea_disabled (documentId : DocumentId) (st : State) : bool :=
  loading st || negb (has_document documentId).

Definition send_disabled (documentId : DocumentId) (st : State) : bool :=
  str_falsy (trim (input st)) || loading st || negb (has_document documentId).

(** What can happen to the page: the user clicks a suggestion (shown while
    there is no message), edits the textarea, presses a key in it, clicks
    the send button, or the fetch in flight settles.  A disabled control
    receives no event. *)
Inductive Event : Type :=
| ClickSuggestion (i : nat)
| TypeInput (s : string)
| KeyDown (key : string) (shiftKey : bool)
| ClickSend
| FetchSettled (out : FetchOutcome).

(** The page between events: its state and, while a [sendMessage] awaits
    its fetch, the [conversationId] that call captured. *)
Record Page : Type := mkPage {
  state : State;
  in_flight : option jsval
}.

Definition mounted : Page := {| state := initial; in_flight := None |}.

Definition invoke_sendMessage (documentId : DocumentId) (clk : Clock) (pg : Page)
  : Page * list Request :=
  match sendMessage_start documentId clk (state pg) with
  | None => (pg, [])
  | Some (req, st1) =>
      ({| state := st1; in_flight := Some (conversationId (state pg)) |}, [req])
  end.

Definition step (documentId : DocumentId) (pg : Page) (ev : Event * Clock)
  : Page * list Request :=
  let '(e, clk) := ev in
  let st := state pg in
  match e with
  | ClickSuggestion i =>
      match messages st, nth_error suggestions i with
      | [], Some s => ({| state := setInput s st; in_flight := in_flight pg |}, [])
      | _, _ => (pg, [])
      end
  | TypeInput s =>
      if textarea_disabled documentId st then (pg, [])
      else ({| state := setInput s st; in_flight := in_flight pg |}, [])
  | KeyDown key shiftKey =>
      if textarea_disabled documentId st then (pg, [])
      else if (key =? "Enter")%string && negb shiftKey
           then invoke_sendMessage documentId clk pg
           else (pg, [])
  | ClickSend =>
      if send_disabled documentId st then (pg, [])
      else invoke_sendMessage documentId clk pg
  | FetchSettled out =>
      match in_flight pg with
      | Some cid =>
          ({| state := sendMessage_finish cid clk out st; in_flight := None |}, [])
      | None => (pg, [])
      end
  end.

(** Runs a sequence of events; the requests issued come out in order. *)
Fixpoint run (documentId : DocumentId) (pg : Page) (evs : list (Event * Clock))
  : Page * list Request :=
  match evs with
  | [] => (pg, [])
  | ev :: rest =>
      let '(pg1, reqs1) := step documentId pg ev in
      let '(pg2, reqs2) := run documentId pg1 rest in
      (pg2, (reqs1 ++ reqs2)%list)
  end.

(** *** The citations under a message *)

(** An element of [msg.sources] as [renderSource] reads it; [None] for
    [null], of which no property can be read. *)
Definition source_of (item : json) : option Source :=
  match prop item "type", prop item "content", prop item "url", prop item "caption",
        prop item "page", prop item "score", prop item "data" with
  | Some t, Some c, Some u, Some cap, Some p, Some sc, Some d =>
      Some {| type := t; src_content := c; url := u; caption := cap; page := p;
              score := sc; data := d |}
  | _, _, _, _, _, _, _ => None
  end.

(** [items.map((source, sidx) => renderSource(source, sidx))] from index
    [sidx] on; [None]: a [null] element makes [renderSource] throw. *)
Fixpoint render_sources (sidx : nat) (items : list json) : option (list (option Jsx)) :=
  match items with
  | [] => Some []
  | item :: rest =>
      match source_of item, render_sources (S sidx) rest with
      | Some source, Some cards => Some (renderSource source sidx :: cards)
      | _, _ => None
      end
  end.

(** What is under the text of a message. *)
Inductive Citations : Type :=
| NoCitations                              (* nothing *)
| Cards (cards : list (option Jsx))        (* the block, a card or [null] per source *)
| RenderThrows.                            (* the render throws a TypeError *)

(** [msg.sources && msg.sources.length > 0 && (<div>...</div>)] for a
    [sources] that is absent, [null] or an array, the shapes in which the
    page itself and the chat endpoint produce it; [None] for any other
    value. *)
Definition citations (srcs : jsval) : option Citations :=
  match srcs with
  | None => Some NoCitations
  | Some JNull => Some NoCitations
  | Some (JArr []) => Some NoCitations
  | Some (JArr items) =>
      Some (match render_sources 0 items with
            | Some cards => Cards cards
            | None => RenderThrows
            end)
  | Some _ => None
  end.

(** [renderSource] has a card for the type of this source. *)
Definition known_type (source : Source) : bool :=
  is_str (type source) "text" || is_str (type source) "image"
  || is_str (type source) "table".

Definition is_card (card : option Jsx) : bool :=
  match card with Some _ => true | None => false end.

(** A property of the JSON object a request carries. *)
Definition field (k : string) (r : Request) : jsval :=
  match req_body r with
  | JObj props => assoc k props
  | _ => undefined
  end.



(** [msg.role === 'user'], which picks the side and the colour of a
    message's bubble. *)
Definition is_user (m : Message) : bool := (role m =? "user")%string.

(** The roles of a history of [turns] finished turns, with the user
    message of a turn still awaiting its answer at the end. *)
Fixpoint turn_roles (turns : nat) (awaiting_answer : bool) : list string :=
  match turns with
  | O => if awaiting_answer then ["user"] else []
  | S k => "user" :: "assistant" :: turn_roles k awaiting_answer
  end.

(** A fetch is in flight. *)
Definition busy (pg : Page) : bool :=
  match in_flight pg with Some _ => true | None => false end.

(** What holds of the page between events, beyond [consistent]: a fetch
    is in flight exactly while [loading] is set, and then the history is
    not empty. *)
Definition settled_or_loading (pg : Page) : Prop :=
  loading (state pg) = busy pg /\ (busy pg = true -> messages (state pg) <> []).

(** The event comes from the user, not from the network. *)
Definition from_user (e : Event) : bool :=
  match e with
  | FetchSettled _ => false
  | _ => true
  end.

End Chat.

(** ** The upload page ([UploadPage]) *)

Module Upload.
Import JS.

(** The two properties of a browser [File] that the page reads. *)
Record File : Type := mkFile {
  name : string;
  size : Z
}.

Record State : Type := mkState {
  file : option File;
  uploading : bool;
  uploadProgress : Z;
  error : option string;
  isDragging : bool
}.

Definition setError (e : option string) (st : State) : State :=
  {| file := file st; uploading := uploading st; uploadProgress := uploadProgress st;
     error := e; isDragging := isDragging st |}.

Definition setFile (f : option File) (st : State) : State :=
  {| file := f; uploading := uploading st; uploadProgress := uploadProgress st;
     error := error st; isDragging := isDragging st |}.

Definition handleFileSelect (selectedFile : File) (st : State) : State :=
  if negb (endsWith (toLowerCase (name selectedFile)) ".pdf") then
    setError (Some "Only PDF files are supported") st
  else if size selectedFile >? 50 * 1024 * 1024 then
    setError (Some "File size must be less than 50MB") st
  else
    setError None (setFile (Some selectedFile) st).

(** The file is a PDF by its name and within the size limit in bytes. *)
Definition accepted (f : File) : bool :=
  endsWith (toLowerCase (name f)) ".pdf" && (size f <=? 52428800).

(** *** The rest of the page *)

Definition initial : State :=
  {| file := None; uploading := false; uploadProgress := 0; error := None;
     isDragging := false |}.

Definition setUploading (v : bool) (st : State) : State :=
  {| file := file st; uploading := v; uploadProgress := uploadProgress st;
     error := error st; isDragging := isDragging st |}.

Definition setUploadProgress (v : Z) (st : State) : State :=
  {| file := file st; uploading := uploading st; uploadProgress := v;
     error := error st; isDragging := isDragging st |}.

Definition setIsDragging (v : bool) (st : State) : State :=
  {| file := file st; uploading := uploading st; uploadProgress := uploadProgress st;
     error := error st; isDragging := v |}.

(** [handleFileChange]: [files] is [e.target.files], [None] for [null]. *)
Definition handleFileChange (files : option (list File)) (st : State) : State :=
  match files with
  | Some (first :: _) => handleFileSelect first st
  | _ => st
  end.

Definition handleDragOver (st : State) : State := setIsDragging true st.

Definition handleDragLeave (st : State) : State := setIsDragging false st.

(** [handleDrop]: [files] is [e.dataTransfer.files]. *)
Definition handleDrop (files : list File) (st : State) : State :=
  let st1 := setIsDragging false st in
  match files with
  | droppedFile :: _ => handleFileSelect droppedFile st1
  | [] => st1
  end.

Definition removeFile (st : State) : State := setError None (setFile None st).

(** The POST to [/api/documents/upload], its body the form with the file. *)
Record UploadRequest : Type := mkUploadRequest {
  up_url : string;
  up_method : string;
  up_file : File
}.

(** What the JavaScript engine supplies: the message of the error a
    rejected fetch carries, of the SyntaxError of a body that is not JSON,
    of the TypeError of reading a property of [null], and the text of a
    value that is not a string. *)
Record Runtime : Type := mkRuntime {
  fetch_failed : string;
  not_json : string;
  null_property : string;
  to_string : json -> string
}.

(** [new Error(v).message] for a [v] other than [undefined]. *)
Definition error_message (rt : Runtime) (v : jsval) : string :=
  match v with
  | Some (JStr s) => s
  | Some other => to_string rt other
  | None => ""
  end.

(** Where [router.push] is asked to go, half a second after success:
    [Push v] is [`/documents/${v}`]. *)
Inductive Navigation : Type :=
| Stay
| Push (v : jsval).

(** [handleUpload] up to its [await fetch(...)]; [None]: no file, the
    call returned at once. *)
Definition handleUpload_start (st : State) : option (UploadRequest * State) :=
  match file st with
  | None => None
  | Some f =>
      Some ({| up_url := "http://localhost:8000/api/documents/upload";
               up_method := "POST"; up_file := f |},
            setUploadProgress 0 (setError None (setUploading true st)))
  end.

(** One firing of the progress interval. *)
Definition progress_tick (st : State) : State :=
  setUploadProgress (Z.min (uploadProgress st + 10) 90) st.

(** The [catch] and [finally] blocks for an error with message [msg]. *)
Definition upload_failed (msg : string) (st : State) : State * Navigation :=
  (setUploading false (setUploadProgress 0 (setError (Some msg) st)), Stay).

(** [handleUpload] from the point where the awaited fetch settles. *)
Definition handleUpload_finish (rt : Runtime) (out : FetchOutcome) (st : State)
  : State * Navigation :=
  match out with
  | NetworkError => upload_failed (fetch_failed rt) st
  | Responded status body =>
      let st1 := setUploadProgress 100 st in
      if negb (response_ok status) then
        match body with
        | None => upload_failed (not_json rt) st1
        | Some errorData =>
            match prop errorData "detail" with
            | None => upload_failed (null_property rt) st1
            | Some detail =>
                upload_failed (error_message rt (or detail (str "Upload failed"))) st1
            end
        end
      else
        match body with
        | None => upload_failed (not_json rt) st1
        | Some data =>
            (setUploading false st1,
             match prop data "id" with
             | Some v => Push v
             | None => Stay
             end)
        end
  end.

(** One whole call of [handleUpload], the interval firing [ticks] times
    while the fetch is awaited. *)
Definition handleUpload (rt : Runtime) (ticks : nat) (out : FetchOutcome) (st : State)
  : option UploadRequest * (State * Navigation) :=
  match handleUpload_start st with
  | None => (None, (st, Stay))
  | Some (req, st1) =>
      (Some req, handleUpload_finish rt out (Nat.iter ticks progress_tick st1))
  end.

(** The upload went through: a response with an ok status and a JSON
    body. *)
Definition succeeded (out : FetchOutcome) : bool :=
  match out with
  | Responded status (Some _) => response_ok status
  | _ => false
  end.

(** [formatFileSize(bytes)] for an integer [bytes] of magnitude below
    [2^53]. *)
Definition formatFileSize (bytes : Z) : string :=
  if bytes <? 1024 then integer_string bytes ++ " B"
  else if bytes <? 1024 * 1024 then toFixed bytes 1024 1 ++ " KB"
  else toFixed bytes (1024 * 1024) 2 ++ " MB".

(** *** A session at the upload page *)

(** What can happen to the page.  The file input is disabled while
    uploading; the remove button is there for a chosen file while nothing
    uploads; the upload button is disabled without a file or while
    uploading; the drop zone always listens. *)
Inductive Event : Type :=
| ChooseFiles (files : option (list File))
| DragOver
| DragLeave
| Drop (files : list File)
| ClickRemove
| ClickUpload
| IntervalFires
| FetchSettled (out : FetchOutcome).

(** The page between events; [awaiting] while a [handleUpload] awaits its
    fetch (its interval is then running); [route] the last navigation
    asked for. *)
Record Page : Type := mkPage {
  state : State;
  awaiting : bool;
  route : Navigation
}.

Definition mounted : Page := {| state := initial; awaiting := false; route := Stay |}.

Definition has_file (st : State) : bool :=
  match file st with Some _ => true | None => false end.

Definition step (rt : Runtime) (pg : Page) (ev : Event) : Page * list UploadRequest :=
  let st := state pg in
  let keep (st' : State) :=
    ({| state := st'; awaiting := awaiting pg; route := route pg |}, []) in
  match ev with
  | ChooseFiles files =>
      if uploading st then (pg, []) else keep (handleFileChange files st)
  | DragOver => keep (handleDragOver st)
  | DragLeave => keep (handleDragLeave st)
  | Drop files => keep (handleDrop files st)
  | ClickRemove =>
      if has_file st && negb (uploading st) then keep (removeFile st) else (pg, [])
  | ClickUpload =>
      if negb (has_file st) || uploading st then (pg, [])
      else match handleUpload_start st with
           | Some (req, st1) =>
               ({| state := st1; awaiting := true; route := route pg |}, [req])
           | None => (pg, [])
           end
  | IntervalFires =>
      if awaiting pg then keep (progress_tick st) else (pg, [])
  | FetchSettled out =>
      if awaiting pg then
        let '(st1, nav) := handleUpload_finish rt out st in
        ({| state := st1; awaiting := false;
            route := match nav with Stay => route pg | Push v => Push v end |}, [])
      else (pg, [])
  end.

Fixpoint run (rt : Runtime) (pg : Page) (evs : list Event) : Page * list UploadRequest :=
  match evs with
  | [] => (pg, [])
  | ev :: rest =>
      let '(pg1, reqs1) := step rt pg ev in
      let '(pg2, reqs2) := run rt pg1 rest in
      (pg2, (reqs1 ++ reqs2)%list)
  end.

(** What holds of the page between events. *)
Definition invariant (pg : Page) : Prop :=
  (forall f, file (state pg) = Some f -> accepted f = true)
  /\ awaiting pg = uploading (state pg)
  /\ 0 <= uploadProgress (state pg) <= 100
  /\ (awaiting pg = true -> uploadProgress (state pg) <= 90).

End Upload.

(** ** Document status and the actions offered for it *)

(** A control that a page renders for one document. *)
Inductive Action : Type :=
| ViewLink
| ChatLink
| RetryButton
| DeleteButton.

Definition Action_eqb (a b : Action) : bool :=
  match a, b with
  | ViewLink, ViewLink | ChatLink, ChatLink
  | RetryButton, RetryButton | DeleteButton, DeleteButton => true
  | _, _ => false
  end.

(** [cond && <control/>] inside a list of controls. *)
Definition shown (cond : bool) (a : Action) : list Action :=
  if cond then [a] else [].

Definition offers (a : Action) (controls : list Action) : bool :=
  existsb (Action_eqb a) controls.

(** ** The document list ([Home]) *)

Module Home.
Import JS.

(** [interface Document], each field as the response carries it. *)
Record Document : Type := mkDocument {
  id : jsval;
  filename : jsval;
  upload_date : jsval;
  status : jsval;
  total_pages : jsval;
  text_chunks : jsval;
  images : jsval;
  tables : jsval
}.

(** The controls at the right of a document's card, in order. *)
Definition card_actions (doc : Document) : list Action :=
  [ViewLink]
  ++ shown (is_str (status doc) "completed") ChatLink
  ++ shown (is_str (status doc) "error" || is_str (status doc) "pending") RetryButton
  ++ [DeleteButton].

Record State : Type := mkState {
  documents : list Document;
  loading : bool
}.

(** Which of the three branches of the page body is taken; the list view
    carries every card with its controls. *)
Inductive View : Type :=
| LoadingView
| EmptyView
| ListView (cards : list (Document * list Action)).

Definition render (st : State) : View :=
  if loading st then LoadingView
  else match documents st with
       | [] => EmptyView
       | docs => ListView (map (fun doc => (doc, card_actions doc)) docs)
       end.

(** *** The rest of the page *)

Definition initial : State := {| documents := []; loading := true |}.

(** [getStatusClass(status)] *)
Definition getStatusClass (status : jsval) : string :=
  if is_str status "completed" then "status-completed"
  else if is_str status "processing" then "status-processing"
  else if is_str status "error" then "status-error"
  else "status-pending".

(** One element of the [documents] array as the card reads it; [None] for
    [null], of which no property can be read. *)
Definition document_of (item : json) : option Document :=
  match prop item "id", prop item "filename", prop item "upload_date",
        prop item "status", prop item "total_pages", prop item "text_chunks",
        prop item "images", prop item "tables" with
  | Some i, Some f, Some u, Some s, Some p, Some c, Some im, Some t =>
      Some {| id := i; filename := f; upload_date := u; status := s;
              total_pages := p; text_chunks := c; images := im; tables := t |}
  | _, _, _, _, _, _, _, _ => None
  end.

Fixpoint documents_of_items (items : list json) : option (list Document) :=
  match items with
  | [] => Some []
  | item :: rest =>
      match document_of item, documents_of_items rest with
      | Some d, Some ds => Some (d :: ds)
      | _, _ => None
      end
  end.

(** [data.documents || []] as a list of cards.  [None]: the value is
    truthy without being an array of non-null elements, which the page
    cannot render as a list and [State] has no room for. *)
Definition documents_of (v : jsval) : option (list Document) :=
  if negb (truthy v) then Some []
  else match v with
       | Some (JArr items) => documents_of_items items
       | _ => None
       end.

(** [fetchDocuments] from the point where its fetch settles.  The outer
    [None] as for [documents_of]. *)
Definition fetchDocuments (out : FetchOutcome) (st : State) : option State :=
  let caught := Some {| documents := documents st; loading := false |} in
  match out with
  | NetworkError => caught
  | Responded _ None => caught
  | Responded _ (Some data) =>
      match prop data "documents" with
      | None => caught
      | Some v =>
          match documents_of v with
          | Some docs => Some {| documents := docs; loading := false |}
          | None => None
          end
      end
  end.

(** The counts of pages, chunks, images and tables are on the card. *)
Definition card_stats_shown (doc : Document) : bool := is_str (status doc) "completed".

End Home.

(** ** The document page ([DocumentDetailPage]) *)

Module Detail.
Import JS.

(** [document] holds whatever [fetchDocument] stored: [null] at first,
    then the parsed body of the last response. *)
Record State : Type := mkState {
  document : jsval;
  loading : bool
}.

Definition initial : State := {| document := null; loading := true |}.

(** [fetchDocument] from the point where its fetch settles. *)
Definition fetchDocument (out : FetchOutcome) (st : State) : State :=
  match out with
  | Responded _ (Some data) => {| document := Some data; loading := false |}
  | Responded _ None => {| document := document st; loading := false |}
  | NetworkError => {| document := document st; loading := false |}
  end.

(** [document.status] on a truthy [document]. *)
Definition status (doc : json) : jsval :=
  match prop doc "status" with
  | Some v => v
  | None => undefined
  end.

(** The controls at the right of the header, in order. *)
Definition header_actions (doc : json) : list Action :=
  shown (is_str (status doc) "error" || is_str (status doc) "pending") RetryButton
  ++ shown (is_str (status doc) "completed") ChatLink.

(** Which of the three returns of the component is taken. *)
Inductive View : Type :=
| LoadingView                               (* the spinner *)
| NotFoundView                              (* "Document not found" *)
| DocumentView (doc : json) (header : list Action).

Definition render (st : State) : View :=
  if loading st then LoadingView
  else if negb (truthy (document st)) then NotFoundView
  else match document st with
       | Some doc => DocumentView doc (header_actions doc)
       | None => NotFoundView
       end.

(** *** The rest of the page *)

(** [getStatusClass(status)] *)
Definition getStatusClass (status : jsval) : string :=
  if is_str status "completed" then "status-completed"
  else if is_str status "processing" then "status-processing"
  else if is_str status "error" then "status-error"
  else "status-pending".

(** The icon [getStatusIcon(status)] picks. *)
Inductive Icon : Type :=
| CheckCircle
| AlertCircle
| SpinningRefresh.

Definition getStatusIcon (status : jsval) : Icon :=
  if is_str status "completed" then CheckCircle
  else if is_str status "error" then AlertCircle
  else SpinningRefresh.

(** [document?.status === 'processing' || document?.status === 'pending']:
    the condition under which the second effect keeps an interval that
    calls [fetchDocument] every three seconds. *)
Definition polls (document : jsval) : bool :=
  match document with
  | None => false
  | Some JNull => false
  | Some doc => is_str (status doc) "processing" || is_str (status doc) "pending"
  end.

(** [v.length]; [None]: [v] is [null] or [undefined] and the read throws
    a TypeError. *)
Definition length_of (v : jsval) : option jsval :=
  match v with
  | None => None
  | Some JNull => None
  | Some (JArr items) => Some (num (Z.of_nat (List.length items)))
  | Some (JStr s) => Some (num (Z.of_nat (String.length s)))
  | Some (JObj props) => Some (assoc "length" props)
  | Some _ => Some undefined
  end.

(** The two counts of the statistics card, [document.images.length] and
    [document.tables.length], the first places where the render reads a
    property of a property of [document].  [None]: the render throws. *)
Definition stat_counts (doc : json) : option (jsval * jsval) :=
  match prop doc "images", prop doc "tables" with
  | Some images, Some tables =>
      match length_of images, length_of tables with
      | Some n, Some m => Some (n, m)
      | _, _ => None
      end
  | _, _ => None
  end.

End Detail.

(** ** The Chunker *)

Module Chunker.

Record Config : Type := mkConfig {
  chunk_size : nat;
  chunk_overlap : nat
}.

Inductive Error : Type :=
| ConfigurationError.

Section Windows.

Variable A : Type.

(** Modelled from the spec: the sliding-window split of the Chunker
    (section 4.1), whose code is not among the sources.  A window holds
    [size] units and the next one starts [S gap] units later, so two
    neighbours share [size - S gap] units; the window that reaches the end
    of the text is the last one; an empty text has no window. *)
Equations? windows (size gap : nat) (l : list A) : list (list A)
  by wf (List.length l) lt :=
  windows size gap [] := [];
  windows size gap (x :: xs) with Nat.leb (List.length (x :: xs)) size => {
    | true := [x :: xs];
    | false := firstn size (x :: xs) :: windows size gap (skipn (S gap) (x :: xs)) }.
Proof.
  rewrite length_skipn. simpl. lia.
Qed.

(** Concatenates chunk contents with the overlaps removed: the first
    chunk whole, every later one without its leading [overlap] units. *)
Definition remove_overlaps (overlap : nat) (contents : list (list A)) : list A :=
  match contents with
  | [] => []
  | first :: rest => first ++ List.concat (map (skipn overlap) rest)
  end.

(** The trailing [n] units of a chunk. *)
Definition trailing (n : nat) (l : list A) : list A :=
  skipn (List.length l - n) l.

End Windows.

Arguments windows {A}.
Arguments remove_overlaps {A}.
Arguments trailing {A}.

Section Units.

(** A unit of text: a character or a token. *)
Variable unit : Type.

(** A raw text block of one document, tagged with its page. *)
Record TextBlock : Type := mkTextBlock {
  block_text : list unit;
  block_page : nat
}.

Record Chunk : Type := mkChunk {
  index : nat;
  content : list unit;
  page : nat
}.

(** Every unit of the document with the page of its block, in order. *)
Definition paged_units (blocks : list TextBlock) : list (unit * nat) :=
  flat_map (fun b => map (fun u => (u, block_page b)) (block_text b)) blocks.

(** The whole text of the document. *)
Definition full_text (blocks : list TextBlock) : list unit :=
  flat_map block_text blocks.

Definition occurrences (p : nat) (pages : list nat) : nat :=
  count_occ Nat.eq_dec pages p.

(** Between the best page so far and a candidate: more units wins, and of
    two pages with as many units the earlier one. *)
Definition prefer (pages : list nat) (best candidate : nat) : nat :=
  if (occurrences best pages <? occurrences candidate pages)%nat then candidate
  else if (occurrences best pages =? occurrences candidate pages)%nat
          && (candidate <? best)%nat then candidate
  else best.

(** Modelled from the spec: the page of the majority of a chunk's units,
    the earliest page on a tie (section 4.1). *)
Definition majority_page (pages : list nat) : nat :=
  match pages with
  | [] => 0%nat
  | p :: rest => fold_left (prefer pages) rest p
  end.

Fixpoint number_chunks (i : nat) (ws : list (list (unit * nat))) : list Chunk :=
  match ws with
  | [] => []
  | w :: rest =>
      {| index := i; content := map fst w; page := majority_page (map snd w) |}
      :: number_chunks (S i) rest
  end.

(** Modelled from the spec: the Chunker (section 4.1), whose code is not
    among the sources.  An overlap that is not below the chunk size is a
    configuration error raised before any input is looked at. *)
Definition chunk (cfg : Config) (blocks : list TextBlock) : Error + list Chunk :=
  if (chunk_size cfg <=? chunk_overlap cfg)%nat then inl ConfigurationError
  else inr (number_chunks 0
              (windows (chunk_size cfg) (chunk_size cfg - chunk_overlap cfg - 1)
                 (paged_units blocks))).

End Units.

Arguments mkTextBlock {unit}.
Arguments block_text {unit}.
Arguments block_page {unit}.
Arguments mkChunk {unit}.
Arguments index {unit}.
Arguments content {unit}.
Arguments page {unit}.
Arguments paged_units {unit}.
Arguments full_text {unit}.
Arguments number_chunks {unit}.
Arguments chunk {unit}.

End Chunker.

(** ** The navigation bar ([RootLayout]) *)

Module Layout.
Import JS.

(** The [href]s of [navLinks], in order. *)
Definition navLinks : list string := ["/"; "/upload"; "/chat"].

(** [isActive] of a link; [pathname] is [usePathname()], [None] for
    [null]. *)
Definition isActive (pathname : option string) (href : string) : bool :=
  match pathname with
  | Some path =>
      (path =? href)%string || ((href =? "/chat")%string && startsWith path "/chat")
  | None => false
  end.

(** The links shown as active. *)
Definition active_links (pathname : option string) : list string :=
  filter (isActive pathname) navLinks.

End Layout.

(** * Properties *)

(** ** Strings *)

Module StringFacts.
Import JS.

Lemma str_falsy_true (s : string) : str_falsy s = true <-> s = "".
Proof. unfold str_falsy. apply String.eqb_eq. Qed.

Lemma str_falsy_false (s : string) : str_falsy s = false <-> s <> "".
Proof. unfold str_falsy. apply String.eqb_neq. Qed.

Lemma substring_all (s : string) : substring 0 (String.length s) s = s.
Proof. induction s as [| c s IH]; simpl; [reflexivity | rewrite IH; reflexivity]. Qed.

Lemma substring_append_suffix (p suffix : string) :
  substring (String.length p) (String.length suffix) (p ++ suffix) = suffix.
Proof. induction p as [| c p IH]; simpl; [apply substring_all | exact IH]. Qed.

Lemma substring_split (s : string) :
  forall k, (k <= String.length s)%nat ->
    s = substring 0 k s ++ substring k (String.length s - k) s.
Proof.
  induction s as [| c s IH]; intros k Hk.
  - destruct k; reflexivity.
  - destruct k as [| k]; simpl.
    + rewrite substring_all. reflexivity.
    + simpl in Hk. rewrite <- (IH k) by lia. reflexivity.
Qed.

Lemma length_append (a b : string) :
  String.length (a ++ b) = (String.length a + String.length b)%nat.
Proof. induction a as [| c a IH]; simpl; [reflexivity | rewrite IH; reflexivity]. Qed.

(** [endsWith] holds exactly of the strings that are something followed
    by the suffix. *)
Lemma endsWith_spec (s suffix : string) :
  endsWith s suffix = true <-> exists p, s = p ++ suffix.
Proof.
  unfold endsWith. rewrite andb_true_iff, Nat.leb_le, String.eqb_eq. split.
  - intros [Hle Hsub].
    exists (substring 0 (String.length s - String.length suffix) s).
    pose proof (substring_split s (String.length s - String.length suffix)) as Hsplit.
    replace (String.length s - (String.length s - String.length suffix))%nat
      with (String.length suffix) in Hsplit by lia.
    rewrite Hsub in Hsplit. apply Hsplit. lia.
  - intros [p ->]. rewrite length_append. split; [lia |].
    replace (String.length p + String.length suffix - String.length suffix)%nat
      with (String.length p) by lia.
    apply substring_append_suffix.
Qed.

Lemma is_str_true (v : jsval) (lit : string) : is_str v lit = true <-> v = str lit.
Proof.
  unfold is_str, str. destruct v as [[| | | s | |] |]; split; try discriminate.
  - intros H. apply String.eqb_eq in H. subst. reflexivity.
  - intros H. injection H as ->. apply String.eqb_refl.
Qed.

Lemma is_str_str (a b : string) : is_str (str a) b = (a =? b)%string.
Proof. reflexivity. Qed.

End StringFacts.

(** ** One call of [sendMessage] *)

Module SendMessage.
Import JS Chat StringFacts.

Lemma sendable_guard (st : State) :
  sendable st -> str_falsy (trim (input st)) || loading st = false.
Proof.
  intros [Hin Hload]. apply str_falsy_false in Hin. rewrite Hin, Hload. reflexivity.
Qed.

Lemma blocked_guard (st : State) :
  trim (input st) = "" \/ loading st = true ->
  str_falsy (trim (input st)) || loading st = true.
Proof.
  intros [Hin | Hload].
  - apply str_falsy_true in Hin. rewrite Hin. reflexivity.
  - rewrite Hload. apply orb_true_r.
Qed.

Lemma start_sendable (documentId : DocumentId) (clk : Clock) (st : State) :
  sendable st ->
  sendMessage_start documentId clk st =
    Some (chat_request (input st) (conversationId st) documentId,
          appendMessage (tempUserMessage (input st) clk)
            (setLoading true (setInput "" st))).
Proof.
  intros H. unfold sendMessage_start. rewrite (sendable_guard st H). reflexivity.
Qed.

Lemma start_blocked (documentId : DocumentId) (clk : Clock) (st : State) :
  trim (input st) = "" \/ loading st = true ->
  sendMessage_start documentId clk st = None.
Proof.
  intros H. unfold sendMessage_start. rewrite (blocked_guard st H). reflexivity.
Qed.

(** Parsed data other than [null] goes through the [try] block. *)
Lemma on_data_not_null (cid : jsval) (clk : Clock) (data : json) (st : State) :
  data <> JNull ->
  exists conversation_id message_id answer srcs,
    prop data "conversation_id" = Some conversation_id /\
    prop data "message_id" = Some message_id /\
    prop data "answer" = Some answer /\
    prop data "sources" = Some srcs /\
    on_data cid clk data st =
      Some (appendMessage
              {| id := message_id; role := "assistant"; content := answer;
                 sources := srcs; created_at := iso clk |}
              (if negb (truthy cid) then setConversationId conversation_id st else st)).
Proof.
  intros Hnn. unfold on_data.
  destruct data; try congruence; simpl; repeat eexists.
Qed.

(** The [finally] block: whatever the fetch did, [loading] ends [false]. *)
Lemma finish_loading (cid : jsval) (clk : Clock) (out : FetchOutcome) (st : State) :
  loading (sendMessage_finish cid clk out st) = false.
Proof. reflexivity. Qed.

(** The [catch] block: when the fetch rejects, the body is not JSON, or
    the parsed body is [null], the fixed error text is appended. *)
Lemma finish_thrown (cid : jsval) (clk : Clock) (out : FetchOutcome) (st : State) :
  out = NetworkError \/ (exists status, out = Responded status None)
  \/ (exists status, out = Responded status (Some JNull)) ->
  sendMessage_finish cid clk out st =
    setLoading false (appendMessage (errorMessage clk) st).
Proof.
  intros [-> | [[status ->] | [status ->]]]; reflexivity.
Qed.

(** The messages a call leaves behind never lose or change an earlier
    one: the history after the call extends the history before it. *)
Lemma finish_appends_one (cid : jsval) (clk : Clock) (out : FetchOutcome) (st : State) :
  exists m, messages (sendMessage_finish cid clk out st) = (messages st ++ [m])%list
            /\ role m = "assistant".
Proof.
  unfold sendMessage_finish.
  destruct out as [| status [data |]]; simpl; try (eexists; split; reflexivity).
  destruct (on_data cid clk data st) as [st' |] eqn:E;
    [| eexists; split; reflexivity].
  unfold on_data in E.
  destruct (prop data "conversation_id"), (prop data "message_id"),
    (prop data "answer"), (prop data "sources"); try discriminate.
  injection E as <-. simpl.
  destruct (negb (truthy cid)); simpl; eexists; split; reflexivity.
Qed.

(** C10.  When the trimmed input is empty, or a request is in flight
    ([loading] is true), [sendMessage] returns at once: it issues no request
    and leaves the state (messages, conversationId, input, loading) as it
    was.  The same holds for the page: the call changes nothing and puts
    no fetch in flight. *)
Theorem sendMessage_blocked_is_noop
    (documentId : DocumentId) (clk1 clk2 : Clock) (out : FetchOutcome) (st : State)
    (pending : option jsval) :
  trim (input st) = "" \/ loading st = true ->
  sendMessage_start documentId clk1 st = None /\
  sendMessage documentId clk1 out clk2 st = (None, st) /\
  invoke_sendMessage documentId clk1 {| state := st; in_flight := pending |}
    = ({| state := st; in_flight := pending |}, []).
Proof.
  intros H. pose proof (start_blocked documentId clk1 st H) as E.
  unfold sendMessage, invoke_sendMessage. simpl. rewrite E. auto.
Qed.

Lemma sendMessage_blocked_is_noop_witness :
  let st := {| messages := [tempUserMessage "hello" (mkClock 1 "t1")];
               input := "  "; loading := true; conversationId := num 4 |} in
  (trim (input st) = "" \/ loading st = true) /\
  sendMessage (Some "3") (mkClock 2 "t2") NetworkError (mkClock 3 "t3") st = (None, st).
Proof.
  intros st.
  assert (H : trim (input st) = "" \/ loading st = true) by (left; reflexivity).
  split; [exact H |].
  exact (proj1 (proj2 (sendMessage_blocked_is_noop (Some "3") (mkClock 2 "t2")
                         (mkClock 3 "t3") NetworkError st None H))).
Defined.

(** One successful call: the user message, then the assistant message
    built from the response, go to the end of the history; the input is
    cleared and [loading] is back to [false]. *)
Lemma sendMessage_success
    (documentId : DocumentId) (clk1 clk2 : Clock) (status : Z) (data : json) (st : State) :
  sendable st -> data <> JNull ->
  exists conversation_id message_id answer srcs,
    prop data "conversation_id" = Some conversation_id /\
    prop data "message_id" = Some message_id /\
    prop data "answer" = Some answer /\
    prop data "sources" = Some srcs /\
    sendMessage documentId clk1 (Responded status (Some data)) clk2 st =
      (Some (chat_request (input st) (conversationId st) documentId),
       {| messages :=
            messages st ++
              [ tempUserMessage (input st) clk1;
                {| id := message_id; role := "assistant"; content := answer;
                   sources := srcs; created_at := iso clk2 |} ];
          input := "";
          loading := false;
          conversationId :=
            if truthy (conversationId st) then conversationId st else conversation_id |}).
Proof.
  intros Hs Hnn. unfold sendMessage. rewrite (start_sendable documentId clk1 st Hs).
  destruct (on_data_not_null (conversationId st) clk2 data
              (appendMessage (tempUserMessage (input st) clk1)
                 (setLoading true (setInput "" st))) Hnn)
    as (cv & mid & ans & srcs & Hc & Hm & Ha & Hsrc & Hon).
  exists cv, mid, ans, srcs. repeat (split; [assumption |]).
  unfold sendMessage_finish. rewrite Hon.
  destruct (truthy (conversationId st)); simpl;
    unfold setLoading, appendMessage, setConversationId, setInput; simpl;
    rewrite <- app_assoc; reflexivity.
Qed.

(** C1.  Two successful chat turns, one after the other, in the same
    conversation: each appends exactly its user message followed by its
    assistant message at the end of the history and leaves every earlier
    message unchanged and in place, so the history grows by four messages
    in the order user, assistant, user, assistant (exactly four from an
    empty history). *)
Theorem two_successful_turns_append
    (documentId : DocumentId) (c1 c2 c3 c4 : Clock) (status1 status2 : Z)
    (data1 data2 : json) (text1 text2 : string) (st0 : State) :
  loading st0 = false -> trim text1 <> "" -> trim text2 <> "" ->
  data1 <> JNull -> data2 <> JNull ->
  let turn1 := sendMessage documentId c1 (Responded status1 (Some data1)) c2
                 (setInput text1 st0) in
  let turn2 := sendMessage documentId c3 (Responded status2 (Some data2)) c4
                 (setInput text2 (snd turn1)) in
  exists a1 a2 : Message,
    role a1 = "assistant" /\ prop data1 "answer" = Some (content a1) /\
    role a2 = "assistant" /\ prop data2 "answer" = Some (content a2) /\
    messages (snd turn1) = (messages st0 ++ [tempUserMessage text1 c1; a1])%list /\
    messages (snd turn2) =
      (messages st0 ++ [tempUserMessage text1 c1; a1; tempUserMessage text2 c3; a2])%list /\
    map role (messages (snd turn2)) =
      (map role (messages st0) ++ ["user"; "assistant"; "user"; "assistant"])%list /\
    List.length (messages (snd turn2)) = (List.length (messages st0) + 4)%nat.
Proof.
  intros Hload Ht1 Ht2 Hd1 Hd2 turn1 turn2.
  assert (Hs1 : sendable (setInput text1 st0)) by (split; assumption).
  destruct (sendMessage_success documentId c1 c2 status1 data1 _ Hs1 Hd1)
    as (cv1 & mid1 & ans1 & srcs1 & _ & _ & Ha1 & _ & E1).
  fold turn1 in E1.
  assert (Hs2 : sendable (setInput text2 (snd turn1))).
  { rewrite E1. split; [assumption | reflexivity]. }
  destruct (sendMessage_success documentId c3 c4 status2 data2 _ Hs2 Hd2)
    as (cv2 & mid2 & ans2 & srcs2 & _ & _ & Ha2 & _ & E2).
  fold turn2 in E2.
  exists {| id := mid1; role := "assistant"; content := ans1;
            sources := srcs1; created_at := iso c2 |},
         {| id := mid2; role := "assistant"; content := ans2;
            sources := srcs2; created_at := iso c4 |}.
  assert (M1 : messages (snd turn1) =
               (messages st0 ++
                  [tempUserMessage text1 c1;
                   {| id := mid1; role := "assistant"; content := ans1;
                      sources := srcs1; created_at := iso c2 |}])%list)
    by (rewrite E1; reflexivity).
  assert (M2 : messages (snd turn2) =
               (messages st0 ++
                  [tempUserMessage text1 c1;
                   {| id := mid1; role := "assistant"; content := ans1;
                      sources := srcs1; created_at := iso c2 |};
                   tempUserMessage text2 c3;
                   {| id := mid2; role := "assistant"; content := ans2;
                      sources := srcs2; created_at := iso c4 |}])%list).
  { rewrite E2. simpl. rewrite M1, <- app_assoc. reflexivity. }
  repeat split; try assumption; try reflexivity.
  - rewrite M2, map_app. reflexivity.
  - rewrite M2, length_app. reflexivity.
Qed.

Lemma two_successful_turns_append_witness :
  let ok1 := JObj [("conversation_id", JNum (inject_Z 5)); ("message_id", JNum (inject_Z 11));
                   ("answer", JStr "It is a report."); ("sources", JArr [])] in
  let ok2 := JObj [("conversation_id", JNum (inject_Z 5)); ("message_id", JNum (inject_Z 13));
                   ("answer", JStr "Revenue grew."); ("sources", JArr [])] in
  let turn1 := sendMessage (Some "3") (mkClock 1 "t1") (Responded 200 (Some ok1))
                 (mkClock 2 "t2") (setInput "What is this?" initial) in
  let turn2 := sendMessage (Some "3") (mkClock 3 "t3") (Responded 200 (Some ok2))
                 (mkClock 4 "t4") (setInput "And the revenue?" (snd turn1)) in
  map role (messages (snd turn2)) = ["user"; "assistant"; "user"; "assistant"] /\
  List.length (messages (snd turn2)) = 4%nat.
Proof.
  intros ok1 ok2 turn1 turn2.
  destruct (two_successful_turns_append (Some "3") (mkClock 1 "t1") (mkClock 2 "t2")
              (mkClock 3 "t3") (mkClock 4 "t4") 200 200 ok1 ok2
              "What is this?" "And the revenue?" initial)
    as (a1 & a2 & _ & _ & _ & _ & _ & _ & Hroles & Hlen);
    try reflexivity; try discriminate.
  split; [exact Hroles | exact Hlen].
Defined.

(** C5, at a response that reports a failure.  The chat endpoint answers
    with status 500 and a JSON body that describes the error.  The fetch
    resolves, the body parses, and [sendMessage] never looks at the status:
    the assistant message that is appended has [undefined] for its content
    (an empty bubble) instead of the error text, and [conversationId]
    becomes [undefined]. *)
Theorem http_error_recorded_as_empty_answer (clk1 clk2 : Clock) :
  let payload := JObj [("detail", JStr "Internal Server Error")] in
  sendMessage (Some "1") clk1 (Responded 500 (Some payload)) clk2
    (setInput "What is the revenue?" initial)
  = (Some (chat_request "What is the revenue?" null (Some "1")),
     {| messages :=
          [ tempUserMessage "What is the revenue?" clk1;
            {| id := undefined; role := "assistant"; content := undefined;
               sources := undefined; created_at := iso clk2 |} ];
        input := ""; loading := false; conversationId := undefined |})
  /\ response_ok 500 = false
  /\ content {| id := undefined; role := "assistant"; content := undefined;
                sources := undefined; created_at := iso clk2 |} <> str error_text.
Proof.
  repeat split. discriminate.
Qed.

End SendMessage.

(** ** Sessions at the chat page *)

Module Session.
Import JS Chat StringFacts SendMessage.

Lemma run_cons (documentId : DocumentId) (pg : Page) (ev : Event * Clock)
    (rest : list (Event * Clock)) :
  run documentId pg (ev :: rest) =
    (fst (run documentId (fst (step documentId pg ev)) rest),
     (snd (step documentId pg ev)
        ++ snd (run documentId (fst (step documentId pg ev)) rest))%list).
Proof.
  simpl. destruct (step documentId pg ev) as [pg1 reqs1].
  simpl. destruct (run documentId pg1 rest) as [pg2 reqs2]. reflexivity.
Qed.


Lemma field_document_id (text : string) (cid : jsval) (documentId : DocumentId) :
  field "document_id" (chat_request text cid documentId) =
    Some (match documentId with
          | Some d => if str_falsy d then JNull else number_json (parseInt d)
          | None => JNull
          end).
Proof. destruct cid; reflexivity. Qed.

Lemma invoke_cases (documentId : DocumentId) (clk : Clock) (pg : Page) :
  invoke_sendMessage documentId clk pg = (pg, [])
  \/ (sendable (state pg) /\
      invoke_sendMessage documentId clk pg =
        ({| state := appendMessage (tempUserMessage (input (state pg)) clk)
                       (setLoading true (setInput "" (state pg)));
            in_flight := Some (conversationId (state pg)) |},
         [chat_request (input (state pg)) (conversationId (state pg)) documentId])).
Proof.
  unfold invoke_sendMessage, sendMessage_start.
  destruct (str_falsy (trim (input (state pg)))) eqn:Hin; simpl; [left; reflexivity |].
  destruct (loading (state pg)) eqn:Hload; simpl; [left; reflexivity |].
  right. split; [| reflexivity].
  split; [apply str_falsy_false; assumption | assumption].
Qed.

(** *** Without a document id nothing is ever sent *)



(** *** The conversation id across a session *)















End Session.

(** ** Source citations *)

Module Sources.
Import JS Chat StringFacts.




End Sources.

(** ** Retrying and missing documents *)

Module Documents.
Import JS StringFacts.

Lemma offers_shown (cond : bool) (a b : Action) :
  offers a (shown cond b) = cond && Action_eqb a b.
Proof. destruct cond; simpl; [apply orb_false_r | reflexivity]. Qed.

Lemma offers_app (a : Action) (l1 l2 : list Action) :
  offers a (l1 ++ l2) = offers a l1 || offers a l2.
Proof. unfold offers. apply existsb_app. Qed.

Lemma retry_condition (status : jsval) :
  is_str status "error" || is_str status "pending" = true <->
  (status = str "error" \/ status = str "pending").
Proof. rewrite orb_true_iff, !is_str_true. reflexivity. Qed.

Lemma Home_retry_iff (doc : Home.Document) :
  offers RetryButton (Home.card_actions doc) = true <->
  (Home.status doc = str "error" \/ Home.status doc = str "pending").
Proof.
  unfold Home.card_actions. rewrite !offers_app, !offers_shown. simpl.
  rewrite andb_false_r, andb_true_r, orb_false_r. simpl.
  apply retry_condition.
Qed.

Lemma Detail_retry_iff (doc : json) :
  offers RetryButton (Detail.header_actions doc) = true <->
  (Detail.status doc = str "error" \/ Detail.status doc = str "pending").
Proof.
  unfold Detail.header_actions. rewrite offers_app, !offers_shown. simpl.
  rewrite andb_false_r, andb_true_r, orb_false_r.
  apply retry_condition.
Qed.



(** When the fetch of the document page throws (no response, or a body
    that is not JSON) or the body is [null], the freshly mounted page
    shows "Document not found". *)
Lemma fetch_without_data_not_found (out : FetchOutcome) :
  out = NetworkError \/ (exists status, out = Responded status None)
  \/ (exists status, out = Responded status (Some JNull)) ->
  Detail.render (Detail.fetchDocument out Detail.initial) = Detail.NotFoundView.
Proof.
  intros [-> | [[status ->] | [status ->]]]; reflexivity.
Qed.

(** C7, at the response for an absent document.  The endpoint answers
    with status 404 and a JSON body that says so.  [fetchDocument] never
    looks at the status and stores the body as the document: the state is
    no longer null and the page takes the branch that shows a document,
    not the "Document not found" one. *)
Theorem not_found_payload_taken_for_document :
  let payload := JObj [("detail", JStr "Document not found")] in
  let st := Detail.fetchDocument (Responded 404 (Some payload)) Detail.initial in
  response_ok 404 = false
  /\ Detail.document st = Some payload
  /\ Detail.document st <> null
  /\ Detail.render st = Detail.DocumentView payload []
  /\ Detail.render st <> Detail.NotFoundView.
Proof.
  repeat split; discriminate.
Qed.

End Documents.

(** ** Choosing a file to upload *)

Module UploadFacts.
Import JS Upload StringFacts.

(** C9.  [handleFileSelect] accepts the file exactly when its name,
    lower-cased, ends in [.pdf] and its size is at most 52428800 bytes.
    An accepted file is stored and the error cleared.  A rejected file
    sets the error message of the failed check and leaves the file chosen
    before, and everything else, as it was. *)
Theorem handleFileSelect_accepts_iff (f : File) (st : State) :
  (accepted f = true <->
     ((exists stem, toLowerCase (name f) = stem ++ ".pdf") /\ size f <= 52428800))
  /\ (accepted f = true ->
      handleFileSelect f st =
        {| file := Some f; uploading := uploading st; uploadProgress := uploadProgress st;
           error := None; isDragging := isDragging st |})
  /\ (endsWith (toLowerCase (name f)) ".pdf" = false ->
      handleFileSelect f st =
        {| file := file st; uploading := uploading st; uploadProgress := uploadProgress st;
           error := Some "Only PDF files are supported"; isDragging := isDragging st |})
  /\ (endsWith (toLowerCase (name f)) ".pdf" = true -> 52428800 < size f ->
      handleFileSelect f st =
        {| file := file st; uploading := uploading st; uploadProgress := uploadProgress st;
           error := Some "File size must be less than 50MB"; isDragging := isDragging st |})
  /\ (accepted f = false ->
      file (handleFileSelect f st) = file st /\ error (handleFileSelect f st) <> None).
Proof.
  unfold accepted, handleFileSelect.
  change (50 * 1024 * 1024) with 52428800.
  rewrite Z.gtb_ltb.
  split; [| repeat split].
  - rewrite andb_true_iff, endsWith_spec, Z.leb_le. reflexivity.
  - intros H. apply andb_true_iff in H. destruct H as [Hn Hs].
    rewrite Hn. simpl. apply Z.leb_le in Hs.
    destruct (52428800 <? size f) eqn:E; [| reflexivity].
    apply Z.ltb_lt in E. lia.
  - intros Hn. rewrite Hn. reflexivity.
  - intros Hn Hs. rewrite Hn. simpl.
    apply Z.ltb_lt in Hs. rewrite Hs. reflexivity.
  - destruct (endsWith (toLowerCase (name f)) ".pdf"); simpl in *; [| reflexivity].
    destruct (52428800 <? size f) eqn:E; [reflexivity |].
    apply Z.ltb_ge in E. apply Z.leb_gt in H. lia.
  - destruct (endsWith (toLowerCase (name f)) ".pdf"); simpl in *; [| discriminate].
    destruct (52428800 <? size f) eqn:E; [discriminate |].
    apply Z.ltb_ge in E. apply Z.leb_gt in H. lia.
Qed.

Lemma handleFileSelect_accepts_iff_witness :
  let chosen := {| file := Some (mkFile "old.pdf" 10); uploading := false;
                   uploadProgress := 0; error := None; isDragging := false |} in
  let report := mkFile "Report.PDF" 52428800 in
  let big := mkFile "big.pdf" 52428801 in
  (accepted report = true /\ file (handleFileSelect report chosen) = Some report)
  /\ (52428800 < size big /\
      handleFileSelect big chosen =
        {| file := Some (mkFile "old.pdf" 10); uploading := false; uploadProgress := 0;
           error := Some "File size must be less than 50MB"; isDragging := false |}).
Proof.
  intros chosen report big. split.
  - assert (Ha : accepted report = true) by reflexivity.
    split; [exact Ha |].
    rewrite (proj1 (proj2 (handleFileSelect_accepts_iff report chosen)) Ha). reflexivity.
  - assert (Hs : 52428800 < size big) by reflexivity.
    split; [exact Hs |].
    exact (proj1 (proj2 (proj2 (proj2 (handleFileSelect_accepts_iff big chosen))))
             eq_refl Hs).
Defined.

End UploadFacts.

(** ** The Chunker *)

Module ChunkerFacts.
Import Chunker.
Local Open Scope nat_scope.
Local Open Scope list_scope.

Section WindowFacts.

Context {A : Type}.
Variables size gap : nat.

Lemma windows_nil : windows size gap (@nil A) = [].
Proof. simp windows. reflexivity. Qed.

Lemma windows_short (l : list A) :
  l <> [] -> List.length l <= size -> windows size gap l = [l].
Proof.
  destruct l as [| x xs]; [congruence |]. intros _ H.
  simp windows. apply Nat.leb_le in H. rewrite H. reflexivity.
Qed.

Lemma windows_long (l : list A) :
  size < List.length l ->
  windows size gap l = firstn size l :: windows size gap (skipn (S gap) l).
Proof.
  destruct l as [| x xs]; [simpl; lia |]. intros H.
  simp windows. apply Nat.leb_gt in H. rewrite H. reflexivity.
Qed.

(** The three shapes of a text, as [windows] sees them. *)
Lemma text_cases (l : list A) :
  l = [] \/ (l <> [] /\ List.length l <= size) \/ size < List.length l.
Proof.
  destruct l as [| x xs]; [left; reflexivity | right].
  destruct (Nat.le_gt_cases (List.length (x :: xs)) size); [left | right]; auto.
  split; [discriminate | assumption].
Qed.

(** Induction on a text along the recursion of [windows]. *)
Lemma windows_ind (P : list A -> Prop) :
  P [] ->
  (forall l, l <> [] -> List.length l <= size -> P l) ->
  (forall l, size < List.length l -> P (skipn (S gap) l) -> P l) ->
  forall l, P l.
Proof.
  intros Hnil Hshort Hlong l.
  remember (List.length l) as n eqn:En. revert l En.
  induction n as [n IH] using lt_wf_ind. intros l ->.
  destruct (text_cases l) as [-> | [[Hne Hle] | Hgt]]; auto.
  apply Hlong; [assumption |].
  apply (IH (List.length (skipn (S gap) l))); [| reflexivity].
  rewrite length_skipn. lia.
Qed.

(** Two neighbouring windows start [S gap] units apart and share
    [size - S gap] units. *)
Hypothesis stride_fits : S gap <= size.

Lemma windows_longer_than_overlap (l : list A) :
  size - S gap < List.length l ->
  Forall (fun w => size - S gap < List.length w) (windows size gap l).
Proof.
  induction l as [| l Hne Hle | l Hgt IH] using windows_ind; intros Hl.
  - simpl in Hl. lia.
  - rewrite windows_short by assumption. constructor; [assumption | constructor].
  - rewrite windows_long by assumption. constructor.
    + rewrite length_firstn. lia.
    + apply IH. rewrite length_skipn. lia.
Qed.

Lemma concat_skip_windows (l : list A) :
  size - S gap < List.length l ->
  List.concat (map (skipn (size - S gap)) (windows size gap l))
    = skipn (size - S gap) (remove_overlaps (size - S gap) (windows size gap l)).
Proof.
  intros Hl. pose proof (windows_longer_than_overlap l Hl) as Hall.
  destruct (windows size gap l) as [| w rest]; simpl.
  - rewrite skipn_nil. reflexivity.
  - inversion Hall as [| ? ? Hw _]; subst.
    rewrite skipn_app.
    replace (size - S gap - List.length w) with 0 by lia. reflexivity.
Qed.

(** Gluing the windows back with the overlaps removed gives the text. *)
Lemma windows_reconstruct (l : list A) :
  remove_overlaps (size - S gap) (windows size gap l) = l.
Proof.
  induction l as [| l Hne Hle | l Hgt IH] using windows_ind.
  - rewrite windows_nil. reflexivity.
  - rewrite windows_short by assumption. simpl. apply app_nil_r.
  - rewrite windows_long by assumption. unfold remove_overlaps.
    rewrite concat_skip_windows, IH, skipn_skipn.
    + replace (size - S gap + S gap) with size by lia.
      apply firstn_skipn.
    + rewrite length_skipn. lia.
Qed.

(** The window at position [i] is the [size] units from offset
    [i * S gap], and that offset lies inside the text. *)
Lemma windows_nth (i : nat) :
  forall (l : list A) (w : list A),
    nth_error (windows size gap l) i = Some w ->
    w = firstn size (skipn (i * S gap) l) /\ i * S gap < List.length l.
Proof.
  induction i as [| i IH]; intros l w Hnth.
  - destruct (text_cases l) as [-> | [[Hne Hle] | Hgt]].
    + rewrite windows_nil in Hnth. discriminate.
    + rewrite windows_short in Hnth by assumption. injection Hnth as <-.
      simpl. rewrite firstn_all2 by assumption.
      split; [reflexivity |]. destruct l; [congruence | simpl; lia].
    + rewrite windows_long in Hnth by assumption. injection Hnth as <-.
      simpl. split; [reflexivity | lia].
  - destruct (text_cases l) as [-> | [[Hne Hle] | Hgt]].
    + rewrite windows_nil in Hnth. discriminate.
    + rewrite windows_short in Hnth by assumption. simpl in Hnth.
      destruct i; discriminate.
    + rewrite windows_long in Hnth by assumption. cbn [nth_error] in Hnth.
      destruct (IH _ _ Hnth) as [-> Hlt]. rewrite skipn_skipn.
      rewrite length_skipn in Hlt.
      replace (i * S gap + S gap) with (S i * S gap) by lia.
      split; [reflexivity | lia].
Qed.

(** A window that has a successor is full. *)
Lemma windows_nth_full (i : nat) :
  forall (l : list A) (w w' : list A),
    nth_error (windows size gap l) i = Some w ->
    nth_error (windows size gap l) (S i) = Some w' ->
    List.length w = size.
Proof.
  induction i as [| i IH]; intros l w w' Hnth Hnext;
    destruct (text_cases l) as [-> | [[Hne Hle] | Hgt]];
    try (rewrite windows_nil in Hnth; discriminate).
  - rewrite windows_short in Hnext by assumption. discriminate.
  - rewrite windows_long in Hnth by assumption.
    injection Hnth as <-. rewrite length_firstn. lia.
  - rewrite windows_short in Hnext by assumption. destruct i; discriminate.
  - rewrite windows_long in Hnth, Hnext by assumption.
    cbn [nth_error] in Hnth, Hnext. exact (IH _ _ _ Hnth Hnext).
Qed.

(** A window that has a predecessor is longer than the overlap. *)
Lemma windows_nth_next_length (i : nat) (l : list A) (w' : list A) :
  nth_error (windows size gap l) (S i) = Some w' -> size - S gap < List.length w'.
Proof.
  intros Hnext.
  destruct (text_cases l) as [-> | [[Hne Hle] | Hgt]].
  - rewrite windows_nil in Hnext. discriminate.
  - rewrite windows_short in Hnext by assumption. destruct i; discriminate.
  - rewrite windows_long in Hnext by assumption. cbn [nth_error] in Hnext.
    assert (Hl : size - S gap < List.length (skipn (S gap) l))
      by (rewrite length_skipn; lia).
    pose proof (windows_longer_than_overlap _ Hl) as Hall.
    rewrite Forall_forall in Hall. apply Hall.
    apply nth_error_In with (n := i). exact Hnext.
Qed.

(** Neighbours share exactly the overlap: the last [size - S gap] units of a
    window are the first [size - S gap] units of the next. *)
Lemma windows_adjacent (i : nat) (l : list A) (w w' : list A) :
  nth_error (windows size gap l) i = Some w ->
  nth_error (windows size gap l) (S i) = Some w' ->
  trailing (size - S gap) w = firstn (size - S gap) w'
  /\ List.length (firstn (size - S gap) w') = size - S gap.
Proof.
  intros Hnth Hnext.
  pose proof (windows_nth_full i l w w' Hnth Hnext) as Hfull.
  pose proof (windows_nth_next_length i l w' Hnext) as Hlen.
  destruct (windows_nth i l w Hnth) as [Ew _].
  destruct (windows_nth (S i) l w' Hnext) as [Ew' _].
  split; [| rewrite length_firstn; lia].
  unfold trailing. rewrite Hfull.
  replace (size - (size - S gap)) with (S gap) by lia.
  rewrite Ew, Ew', skipn_firstn_comm, skipn_skipn, firstn_firstn.
  replace (Nat.min (size - S gap) size) with (size - S gap) by lia.
  reflexivity.
Qed.

End WindowFacts.

Lemma windows_map {A B : Type} (f : A -> B) (size gap : nat) (l : list A) :
  map (map f) (windows size gap l) = windows size gap (map f l).
Proof.
  induction l as [| l Hne Hle | l Hgt IH] using (windows_ind size gap).
  - simpl. rewrite !windows_nil. reflexivity.
  - rewrite (windows_short size gap l Hne Hle).
    rewrite (windows_short size gap (map f l));
      [reflexivity | destruct l; [congruence | discriminate]
      | rewrite length_map; assumption].
  - rewrite (windows_long size gap l) by assumption.
    rewrite (windows_long size gap (map f l)) by (rewrite length_map; assumption).
    cbn [map]. rewrite IH, firstn_map, skipn_map. reflexivity.
Qed.

Section ChunkFacts.

Context {unit : Type}.

Lemma paged_units_text (blocks : list (TextBlock unit)) :
  map fst (paged_units blocks) = full_text blocks.
Proof.
  unfold paged_units, full_text.
  induction blocks as [| b rest IH]; [reflexivity |].
  cbn [flat_map]. rewrite map_app, IH, map_map. cbn [fst].
  rewrite map_id. reflexivity.
Qed.

Lemma number_chunks_contents (ws : list (list (unit * nat))) :
  forall k, map content (number_chunks k ws) = map (map fst) ws.
Proof.
  induction ws as [| w rest IH]; intros k; [reflexivity |].
  cbn [number_chunks map content]. rewrite IH. reflexivity.
Qed.

Lemma number_chunks_index (ws : list (list (unit * nat))) :
  forall k i c, nth_error (number_chunks k ws) i = Some c -> index c = k + i.
Proof.
  induction ws as [| w rest IH]; intros k i c Hnth.
  - destruct i; discriminate.
  - destruct i as [| i]; cbn [number_chunks nth_error] in Hnth.
    + injection Hnth as <-. cbn [index]. lia.
    + rewrite (IH _ _ _ Hnth). lia.
Qed.

(** The contents of the chunks are the windows over the whole text. *)
Lemma chunk_contents (cfg : Config) (blocks : list (TextBlock unit)) (chunks : list (Chunk unit)) :
  chunk cfg blocks = inr chunks ->
  map content chunks =
    windows (chunk_size cfg) (chunk_size cfg - chunk_overlap cfg - 1) (full_text blocks).
Proof.
  unfold chunk. destruct (chunk_size cfg <=? chunk_overlap cfg); [discriminate |].
  intros E. injection E as <-.
  rewrite number_chunks_contents, windows_map, paged_units_text. reflexivity.
Qed.

(** C8.  With a valid configuration the Chunker returns chunks for every
    input.  Concatenating their contents with the overlaps removed gives
    back the whole text.  The chunk at position [i] is numbered [i] and
    holds the [chunk_size] units from offset [i * (chunk_size -
    chunk_overlap)], so the chunks cover the text without a gap, and the
    last [chunk_overlap] units of a chunk are exactly the first
    [chunk_overlap] units of the next. *)
Theorem chunks_cover_and_overlap (cfg : Config) (blocks : list (TextBlock unit)) :
  chunk_overlap cfg < chunk_size cfg ->
  exists chunks,
    chunk cfg blocks = inr chunks
    /\ remove_overlaps (chunk_overlap cfg) (map content chunks) = full_text blocks
    /\ (forall i c,
          nth_error chunks i = Some c ->
          index c = i
          /\ i * (chunk_size cfg - chunk_overlap cfg) < List.length (full_text blocks)
          /\ content c =
               firstn (chunk_size cfg)
                 (skipn (i * (chunk_size cfg - chunk_overlap cfg)) (full_text blocks)))
    /\ (forall i c d,
          nth_error chunks i = Some c -> nth_error chunks (S i) = Some d ->
          List.length (content c) = chunk_size cfg
          /\ trailing (chunk_overlap cfg) (content c) = firstn (chunk_overlap cfg) (content d)
          /\ List.length (firstn (chunk_overlap cfg) (content d)) = chunk_overlap cfg).
Proof.
  intros Hcfg.
  set (size := chunk_size cfg) in *. set (overlap := chunk_overlap cfg) in *.
  set (gap := size - overlap - 1).
  assert (Hfit : S gap <= size) by (unfold gap; lia).
  assert (Estride : S gap = size - overlap) by (unfold gap; lia).
  assert (Eoverlap : size - S gap = overlap) by (unfold gap; lia).
  destruct (chunk cfg blocks) as [err | chunks] eqn:E.
  { unfold chunk in E. fold size overlap in E.
    destruct (size <=? overlap) eqn:Hle; [| discriminate].
    apply Nat.leb_le in Hle. lia. }
  pose proof (chunk_contents cfg blocks chunks E) as Hc. fold size overlap gap in Hc.
  assert (Hwin : forall i c, nth_error chunks i = Some c ->
                   nth_error (windows size gap (full_text blocks)) i = Some (content c)).
  { intros i c Hnth. rewrite <- Hc, nth_error_map, Hnth. reflexivity. }
  exists chunks. split; [reflexivity |]. split; [| split].
  - rewrite Hc, <- Eoverlap. apply windows_reconstruct, Hfit.
  - intros i c Hnth. split.
    + unfold chunk in E. destruct (chunk_size cfg <=? chunk_overlap cfg); [discriminate |].
      injection E as <-. apply (number_chunks_index _ 0 i c Hnth).
    + destruct (windows_nth size gap Hfit i _ _ (Hwin i c Hnth)) as [Ew Hlt].
      rewrite Estride in Ew, Hlt. split; assumption.
  - intros i c d Hi Hnext.
    pose proof (Hwin i c Hi) as Wi. pose proof (Hwin (S i) d Hnext) as Wn.
    split; [exact (windows_nth_full size gap Hfit i _ _ _ Wi Wn) |].
    rewrite <- Eoverlap. exact (windows_adjacent size gap Hfit i _ _ _ Wi Wn).
Qed.

End ChunkFacts.

Lemma chunks_cover_and_overlap_witness :
  let cfg := mkConfig 4 1 in
  let blocks := [mkTextBlock [1; 2; 3] 1; mkTextBlock [4; 5; 6; 7; 8; 9; 10] 2] in
  chunk_overlap cfg < chunk_size cfg
  /\ exists chunks,
       chunk cfg blocks = inr chunks
       /\ remove_overlaps 1 (map content chunks) = [1; 2; 3; 4; 5; 6; 7; 8; 9; 10].
Proof.
  intros cfg blocks.
  assert (Hcfg : chunk_overlap cfg < chunk_size cfg) by (simpl; lia).
  split; [exact Hcfg |].
  destruct (chunks_cover_and_overlap cfg blocks Hcfg) as (chunks & E & Hrec & _).
  exists chunks. split; [exact E | exact Hrec].
Defined.

(** The scenario of the specification: three blocks on pages 1, 1 and 2,
    2400 units in all, chunks of 1000 with an overlap of 200, give three
    chunks on pages 1, 1 and 2. *)
Example chunk_scenario :
  let blocks := [mkTextBlock (repeat tt 800) 1; mkTextBlock (repeat tt 800) 1;
                 mkTextBlock (repeat tt 800) 2] in
  match chunk (mkConfig 1000 200) blocks with
  | inr chunks =>
      map page chunks = [1; 1; 2]
      /\ map (fun c => List.length (content c)) chunks = [1000; 1000; 800]
  | inl _ => False
  end.
Proof. vm_compute. split; reflexivity. Qed.

(** An overlap that is not below the chunk size is refused. *)
Lemma chunk_configuration_error {unit : Type} (cfg : Config) (blocks : list (TextBlock unit)) :
  chunk_size cfg <= chunk_overlap cfg -> chunk cfg blocks = inl ConfigurationError.
Proof.
  intros H. unfold chunk. apply Nat.leb_le in H. rewrite H. reflexivity.
Qed.

End ChunkerFacts.

(** ** More on sessions at the chat page *)

Module ChatInvariants.
Import JS Chat StringFacts SendMessage Session.

(** *** The guard of [sendMessage] *)

Lemma trim_end_empty (s : string) : trim_end s = "" <-> all_space s = true.
Proof.
  induction s as [| c s IH]; simpl; [tauto |].
  destruct (trim_end s) as [| k ks] eqn:E.
  - destruct (is_space c); simpl.
    + rewrite <- IH. tauto.
    + split; discriminate.
  - split; [discriminate |]. intros H. apply andb_true_iff in H.
    destruct H as [_ H]. apply IH in H. discriminate.
Qed.

Lemma all_space_trim_start (s : string) : all_space (trim_start s) = all_space s.
Proof.
  induction s as [| c s IH]; simpl; [reflexivity |].
  destruct (is_space c) eqn:E; simpl; [exact IH | rewrite E; reflexivity].
Qed.

Lemma trim_empty_iff (s : string) : trim s = "" <-> all_space s = true.
Proof. unfold trim. rewrite trim_end_empty, all_space_trim_start. reflexivity. Qed.

(** [sendMessage] returns at once exactly when the input is empty or all
    white space, or a request is in flight; in every other state it issues
    a request whose message is the input as typed, white space around it
    included. *)
Theorem sendMessage_blocked_iff (documentId : DocumentId) (clk : Clock) (st : State) :
  (sendMessage_start documentId clk st = None <->
     (all_space (input st) = true \/ loading st = true))
  /\ (all_space (input st) = false -> loading st = false ->
      exists st', sendMessage_start documentId clk st = Some
                    (chat_request (input st) (conversationId st) documentId, st')
                  /\ field "message" (chat_request (input st) (conversationId st) documentId)
                     = str (input st)).
Proof.
  split.
  - rewrite <- trim_empty_iff. split.
    + intros H. unfold sendMessage_start in H.
      destruct (str_falsy (trim (input st))) eqn:E1; simpl in H.
      * left. apply str_falsy_true. exact E1.
      * destruct (loading st); [right; reflexivity | discriminate].
    + apply start_blocked.
  - intros Hsp Hl. eexists. split.
    + apply start_sendable. split; [| exact Hl].
      intros E. apply trim_empty_iff in E. congruence.
    + reflexivity.
Qed.

Lemma sendMessage_blocked_iff_witness :
  let st := setInput "  hello " initial in
  all_space (input st) = false /\ loading st = false /\
  exists st', sendMessage_start (Some "3") (mkClock 1 "t") st
              = Some (chat_request "  hello " null (Some "3"), st').
Proof.
  intros st.
  assert (Hs : all_space (input st) = false) by reflexivity.
  assert (Hl : loading st = false) by reflexivity.
  split; [exact Hs | split; [exact Hl |]].
  destruct (proj2 (sendMessage_blocked_iff (Some "3") (mkClock 1 "t") st) Hs Hl)
    as (st' & E & _).
  exists st'. exact E.
Defined.

(** *** The history only grows *)

Lemma finish_appends (cid : jsval) (clk : Clock) (out : FetchOutcome) (st : State) :
  exists m, role m = "assistant"
            /\ messages (sendMessage_finish cid clk out st) = (messages st ++ [m])%list.
Proof.
  destruct (finish_appends_one cid clk out st) as (m & E & R).
  exists m. split; assumption.
Qed.

(** What one event does to the history and which request it issues: it
    changes nothing, or it appends the user message of the request it
    issues, or it appends an assistant message. *)
Lemma step_history (documentId : DocumentId) (pg : Page) (ev : Event * Clock) :
  (messages (state (fst (step documentId pg ev))) = messages (state pg)
     /\ snd (step documentId pg ev) = []
     /\ busy (fst (step documentId pg ev)) = busy pg)
  \/ (from_user (fst ev) = true /\ sendable (state pg)
      /\ messages (state (fst (step documentId pg ev)))
         = (messages (state pg) ++ [tempUserMessage (input (state pg)) (snd ev)])%list
      /\ snd (step documentId pg ev)
         = [chat_request (input (state pg)) (conversationId (state pg)) documentId]
      /\ busy (fst (step documentId pg ev)) = true)
  \/ (from_user (fst ev) = false /\ busy pg = true
      /\ busy (fst (step documentId pg ev)) = false
      /\ snd (step documentId pg ev) = []
      /\ exists m, role m = "assistant"
           /\ messages (state (fst (step documentId pg ev)))
              = (messages (state pg) ++ [m])%list).
Proof.
  destruct ev as [e clk]. unfold step.
  assert (Hsame : forall st',
            messages st' = messages (state pg) ->
            (messages (state (fst ({| state := st'; in_flight := in_flight pg |},
                                   @nil Request))) = messages (state pg)
             /\ snd ({| state := st'; in_flight := in_flight pg |}, @nil Request) = []
             /\ busy (fst ({| state := st'; in_flight := in_flight pg |}, @nil Request))
                = busy pg))
    by (intros st' E; repeat split; exact E).
  assert (Hnone : messages (state (fst (pg, @nil Request))) = messages (state pg)
                  /\ snd (pg, @nil Request) = []
                  /\ busy (fst (pg, @nil Request)) = busy pg)
    by (repeat split).
  destruct e; simpl fst; simpl snd.
  - left. destruct (messages (state pg)), (nth_error suggestions i); exact Hnone.
  - left. destruct (textarea_disabled documentId (state pg)); [exact Hnone |].
    apply Hsame. reflexivity.
  - destruct (textarea_disabled documentId (state pg)); [left; exact Hnone |].
    destruct ((key =? "Enter")%string && negb shiftKey); [| left; exact Hnone].
    destruct (invoke_cases documentId clk pg) as [-> | [Hs ->]]; [left; exact Hnone |].
    right. left. repeat split; try reflexivity; apply Hs.
  - destruct (send_disabled documentId (state pg)); [left; exact Hnone |].
    destruct (invoke_cases documentId clk pg) as [-> | [Hs ->]]; [left; exact Hnone |].
    right. left. repeat split; try reflexivity; apply Hs.
  - destruct (in_flight pg) as [cid |] eqn:Ef; [| left; exact Hnone].
    right. right.
    assert (Hb : busy pg = true) by (unfold busy; rewrite Ef; reflexivity).
    repeat split; try reflexivity; try exact Hb.
    apply finish_appends.
Qed.

(** No event removes or rewrites a message: after any sequence of events
    the history is the history before it followed by what was appended. *)
Theorem history_append_only (documentId : DocumentId) (evs : list (Event * Clock)) (pg : Page) :
  exists appended,
    messages (state (fst (run documentId pg evs))) = (messages (state pg) ++ appended)%list.
Proof.
  revert pg. induction evs as [| ev rest IH]; intros pg.
  - exists []. simpl. rewrite app_nil_r. reflexivity.
  - rewrite run_cons. simpl fst.
    destruct (IH (fst (step documentId pg ev))) as (more & E). rewrite E.
    destruct (step_history documentId pg ev)
      as [(Em & _) | [(_ & _ & Em & _) | (_ & _ & _ & _ & m & _ & Em)]]; rewrite Em.
    + exists more. reflexivity.
    + eexists. rewrite <- app_assoc. reflexivity.
    + eexists. rewrite <- app_assoc. reflexivity.
Qed.

(** *** One request at a time *)

Lemma mounted_settled : settled_or_loading mounted.
Proof. split; [reflexivity | discriminate]. Qed.

Lemma step_settled (documentId : DocumentId) (pg : Page) (ev : Event * Clock) :
  settled_or_loading pg -> settled_or_loading (fst (step documentId pg ev)).
Proof.
  intros Hs. destruct ev as [e clk]. unfold step.
  assert (Hinv : settled_or_loading (fst (invoke_sendMessage documentId clk pg))).
  { destruct (invoke_cases documentId clk pg) as [-> | [_ ->]]; [exact Hs |].
    split; [reflexivity |]. intros _. simpl. apply not_eq_sym, app_cons_not_nil. }
  destruct e.
  - destruct (messages (state pg)), (nth_error suggestions i); exact Hs.
  - destruct (textarea_disabled documentId (state pg)); exact Hs.
  - destruct (textarea_disabled documentId (state pg)); [exact Hs |].
    destruct ((key =? "Enter")%string && negb shiftKey); [exact Hinv | exact Hs].
  - destruct (send_disabled documentId (state pg)); [exact Hs | exact Hinv].
  - destruct (in_flight pg); [| exact Hs].
    split; [reflexivity | discriminate].
Qed.

Lemma run_settled (documentId : DocumentId) (evs : list (Event * Clock)) :
  forall pg, settled_or_loading pg -> settled_or_loading (fst (run documentId pg evs)).
Proof.
  induction evs as [| ev rest IH]; intros pg Hs; [exact Hs |].
  rewrite run_cons. simpl. apply IH, step_settled, Hs.
Qed.

Lemma busy_step_ignored (documentId : DocumentId) (pg : Page) (e : Event) (clk : Clock) :
  settled_or_loading pg -> busy pg = true -> from_user e = true ->
  step documentId pg (e, clk) = (pg, []).
Proof.
  intros [Hl Hm] Hb Hu. rewrite Hb in Hl. specialize (Hm Hb).
  unfold step, textarea_disabled, send_disabled. rewrite Hl.
  rewrite orb_true_r. simpl.
  destruct e; try reflexivity; try discriminate.
  destruct (messages (state pg)); [congruence | reflexivity].
Qed.

(** At most one request is in flight.  In every page a session reaches,
    [loading] is set exactly while a fetch is awaited, and until that
    fetch settles every event from the user (a suggestion, an edit, a key,
    the send button) leaves the page as it is and issues nothing. *)
Theorem loading_page_ignores_user (documentId : DocumentId) (evs : list (Event * Clock)) :
  let pg := fst (run documentId mounted evs) in
  loading (state pg) = busy pg
  /\ (forall e clk,
        loading (state pg) = true -> from_user e = true ->
        step documentId pg (e, clk) = (pg, [])).
Proof.
  intros pg.
  assert (Hs : settled_or_loading pg) by (apply run_settled, mounted_settled).
  split; [apply Hs |].
  intros e clk Hl Hu. apply busy_step_ignored; try assumption.
  destruct Hs as [E _]. rewrite <- E. exact Hl.
Qed.

Lemma loading_page_ignores_user_witness :
  let clk := mkClock 1 "t" in
  let pg := fst (run (Some "3") mounted [(TypeInput "hello", clk); (ClickSend, clk)]) in
  loading (state pg) = true /\ from_user ClickSend = true
  /\ step (Some "3") pg (ClickSend, clk) = (pg, []).
Proof.
  intros clk pg.
  assert (Hl : loading (state pg) = true) by reflexivity.
  assert (Hu : from_user ClickSend = true) by reflexivity.
  split; [exact Hl | split; [exact Hu |]].
  exact (proj2 (loading_page_ignores_user (Some "3")
                  [(TypeInput "hello", clk); (ClickSend, clk)]) ClickSend clk Hl Hu).
Defined.

(** *** Requests and user messages *)

Lemma sendable_not_blank (st : State) : sendable st -> all_space (input st) = false.
Proof.
  intros [Hin _]. apply not_true_is_false. intros H.
  apply trim_empty_iff in H. contradiction.
Qed.

(** The requests a session issues are its user messages: whatever the
    events, the contents of the user messages of the history, in order, are
    those that were there before followed by the messages of the requests
    issued, and none of these is blank. *)
Theorem requests_are_user_messages (documentId : DocumentId) (evs : list (Event * Clock))
    (pg : Page) :
  map content (filter is_user (messages (state (fst (run documentId pg evs)))))
    = (map content (filter is_user (messages (state pg)))
         ++ map (field "message") (snd (run documentId pg evs)))%list
  /\ Forall (fun r => exists text, field "message" r = str text /\ all_space text = false)
       (snd (run documentId pg evs)).
Proof.
  revert pg. induction evs as [| ev rest IH]; intros pg.
  - simpl. rewrite app_nil_r. split; [reflexivity | constructor].
  - rewrite run_cons. simpl fst. simpl snd.
    destruct (IH (fst (step documentId pg ev))) as [E F]. rewrite E.
    destruct (step_history documentId pg ev)
      as [(Em & Er & _) | [(_ & Hs & Em & Er & _) | (_ & _ & _ & Er & m & Hm & Em)]];
      rewrite Em, Er.
    + split; [reflexivity | exact F].
    + rewrite filter_app, map_app, <- app_assoc. split; [reflexivity |].
      constructor; [| exact F].
      exists (input (state pg)). split; [reflexivity | apply sendable_not_blank, Hs].
    + rewrite filter_app, map_app. simpl. unfold is_user. rewrite Hm. simpl.
      rewrite app_nil_r. split; [reflexivity | exact F].
Qed.

Lemma turn_roles_user (k : nat) :
  (turn_roles k false ++ ["user"])%list = turn_roles k true.
Proof. induction k as [| k IH]; simpl; [| rewrite IH]; reflexivity. Qed.

Lemma turn_roles_assistant (k : nat) :
  (turn_roles k true ++ ["assistant"])%list = turn_roles (S k) false.
Proof. induction k as [| k IH]; [reflexivity |]. simpl in *. rewrite IH. reflexivity. Qed.

Lemma run_roles (documentId : DocumentId) (evs : list (Event * Clock)) :
  forall pg k,
    settled_or_loading pg ->
    map role (messages (state pg)) = turn_roles k (busy pg) ->
    exists k',
      map role (messages (state (fst (run documentId pg evs))))
        = turn_roles k' (busy (fst (run documentId pg evs)))
      /\ (k' + (if busy (fst (run documentId pg evs)) then 1 else 0)
          = k + (if busy pg then 1 else 0)
            + List.length (snd (run documentId pg evs)))%nat.
Proof.
  induction evs as [| ev rest IH]; intros pg k Hs Hr.
  - exists k. simpl. split; [exact Hr | lia].
  - rewrite run_cons. simpl fst. simpl snd. rewrite length_app.
    pose proof (step_settled documentId pg ev Hs) as Hs'.
    destruct (step_history documentId pg ev)
      as [(Em & Er & Eb) | [(_ & Hsend & Em & Er & Eb) | (_ & Hb & Eb & Er & m & Hm & Em)]].
    + destruct (IH _ k Hs') as (k' & R & C); [rewrite Em, Eb; exact Hr |].
      exists k'. split; [exact R |]. rewrite C, Eb, Er. simpl. lia.
    + assert (Hb : busy pg = false).
      { destruct Hs as [El _]. rewrite <- El. apply Hsend. }
      destruct (IH _ k Hs') as (k' & R & C).
      { rewrite Em, Eb, map_app, Hr, Hb. apply turn_roles_user. }
      exists k'. split; [exact R |]. rewrite C, Eb, Er, Hb. simpl. lia.
    + destruct (IH _ (S k) Hs') as (k' & R & C).
      { rewrite Em, Eb, map_app, Hr, Hb. simpl map. rewrite Hm.
        apply turn_roles_assistant. }
      exists k'. split; [exact R |]. rewrite C, Eb, Er, Hb. simpl. lia.
Qed.

(** The history of a session alternates: user, assistant, user, assistant
    and so on, ending with a user message exactly while its answer is
    awaited; and every request issued has its user message there, so that
    the requests are as many as the user messages. *)
Theorem history_alternates (documentId : DocumentId) (evs : list (Event * Clock)) :
  let pg := fst (run documentId mounted evs) in
  exists turns,
    map role (messages (state pg)) = turn_roles turns (loading (state pg))
    /\ List.length (snd (run documentId mounted evs))
       = (turns + (if loading (state pg) then 1 else 0))%nat
    /\ List.length (filter is_user (messages (state pg)))
       = List.length (snd (run documentId mounted evs)).
Proof.
  intros pg.
  destruct (run_roles documentId evs mounted 0 mounted_settled eq_refl) as (k & R & C).
  fold pg in R, C.
  assert (El : loading (state pg) = busy pg)
    by (apply (run_settled documentId evs mounted mounted_settled)).
  exists k. rewrite El. split; [exact R |]. split; [simpl in C; lia |].
  destruct (requests_are_user_messages documentId evs mounted) as [E _].
  fold pg in E. simpl in E.
  rewrite <- (length_map content), E, length_map. reflexivity.
Qed.

End ChatInvariants.

(** ** The document parameter of the chat page *)

Module DocumentParameter.
Import JS Chat StringFacts SendMessage Session ChatInvariants.














(** The document_id of a request, from the page's [document] parameter. *)
Lemma run_document_id (documentId : DocumentId) (evs : list (Event * Clock)) :
  forall pg,
    Forall (fun r =>
              req_url r = "http://localhost:8000/api/chat" /\ req_method r = "POST"
              /\ field "document_id" r =
                   Some (match documentId with
                         | Some d => if str_falsy d then JNull else number_json (parseInt d)
                         | None => JNull
                         end))
      (snd (run documentId pg evs)).
Proof.
  induction evs as [| ev rest IH]; intros pg; [constructor |].
  rewrite run_cons. simpl snd. apply Forall_app. split; [| apply IH].
  destruct (step_history documentId pg ev)
    as [(_ & Er & _) | [(_ & _ & _ & Er & _) | (_ & _ & _ & Er & _)]];
    rewrite Er; constructor; [| constructor].
  repeat split. apply field_document_id.
Qed.

Lemma type_and_send (d text : string) (clk1 clk2 : Clock) :
  d <> "" -> all_space text = false ->
  snd (run (Some d) mounted [(TypeInput text, clk1); (ClickSend, clk2)])
    = [chat_request text null (Some d)].
Proof.
  intros Hd Ht. apply str_falsy_false in Hd.
  assert (Ht' : str_falsy (trim text) = false).
  { apply str_falsy_false. intros E. apply trim_empty_iff in E. congruence. }
  simpl. unfold textarea_disabled, send_disabled, has_document. simpl.
  rewrite Hd. simpl. rewrite Ht'. simpl.
  unfold invoke_sendMessage, sendMessage_start. simpl. rewrite Ht'. reflexivity.
Qed.


(** A [document] parameter that is not empty but does not start with a
    number (after white space and a sign) enables the page all the same:
    the user can type and send, and every request of the session then
    carries a null document_id. *)
Theorem non_numeric_document_sends_null (d : string) :
  d <> "" -> parseInt d = None ->
  (forall pg evs,
      Forall (fun r => field "document_id" r = null) (snd (run (Some d) pg evs)))
  /\ (forall text clk1 clk2,
        all_space text = false ->
        snd (run (Some d) mounted [(TypeInput text, clk1); (ClickSend, clk2)])
          = [chat_request text null (Some d)]).
Proof.
  intros Hd Hp. split.
  - intros pg evs. pose proof (run_document_id (Some d) evs pg) as H.
    apply str_falsy_false in Hd. cbv beta iota in H. rewrite Hd, Hp in H.
    eapply Forall_impl; [| exact H]. intros r (_ & _ & E). exact E.
  - intros text clk1 clk2 Ht. apply type_and_send; assumption.
Qed.

Lemma non_numeric_document_sends_null_witness :
  let clk := mkClock 1 "t" in
  "abc" <> "" /\ parseInt "abc" = None /\ all_space "hello" = false
  /\ snd (run (Some "abc") mounted [(TypeInput "hello", clk); (ClickSend, clk)])
     = [chat_request "hello" null (Some "abc")]
  /\ field "document_id" (chat_request "hello" null (Some "abc")) = null.
Proof.
  intros clk.
  assert (Hd : "abc" <> "") by discriminate.
  assert (Hp : parseInt "abc" = None) by reflexivity.
  assert (Ht : all_space "hello" = false) by reflexivity.
  split; [exact Hd | split; [exact Hp | split; [exact Ht |]]].
  split; [| reflexivity].
  exact (proj2 (non_numeric_document_sends_null "abc" Hd Hp) "hello" clk clk Ht).
Defined.

End DocumentParameter.

(** ** Uploading *)

Module Uploading.
Import JS Upload StringFacts.

Lemma handleFileSelect_cases (f : File) (st : State) :
  (accepted f = true /\ file (handleFileSelect f st) = Some f
   /\ error (handleFileSelect f st) = None)
  \/ (accepted f = false /\ file (handleFileSelect f st) = file st
      /\ error (handleFileSelect f st) <> None).
Proof.
  unfold accepted, handleFileSelect.
  change (50 * 1024 * 1024) with 52428800. rewrite Z.gtb_ltb.
  destruct (endsWith (toLowerCase (name f)) ".pdf"); simpl;
    [| right; repeat split; discriminate].
  destruct (52428800 <? size f) eqn:E.
  - right. apply Z.ltb_lt in E. repeat split; [apply Z.leb_gt; exact E | discriminate].
  - left. apply Z.ltb_ge in E. repeat split. apply Z.leb_le. exact E.
Qed.

Lemma handleFileSelect_frame (f : File) (st : State) :
  uploading (handleFileSelect f st) = uploading st
  /\ uploadProgress (handleFileSelect f st) = uploadProgress st
  /\ isDragging (handleFileSelect f st) = isDragging st.
Proof.
  unfold handleFileSelect.
  destruct (negb (endsWith (toLowerCase (name f)) ".pdf")); [repeat split |].
  destruct (size f >? 50 * 1024 * 1024); repeat split.
Qed.

(** How [handleUpload] ends once its fetch has settled. *)
Lemma finish_cases (rt : Runtime) (out : FetchOutcome) (st : State) :
  (succeeded out = true
   /\ fst (handleUpload_finish rt out st)
      = setUploading false (setUploadProgress 100 st))
  \/ (succeeded out = false
      /\ snd (handleUpload_finish rt out st) = Stay
      /\ exists msg,
           fst (handleUpload_finish rt out st)
           = setUploading false (setUploadProgress 0 (setError (Some msg) st))).
Proof.
  unfold handleUpload_finish, succeeded, upload_failed.
  destruct out as [| status [data |]].
  - right. repeat split. eexists. reflexivity.
  - destruct (response_ok status); simpl.
    + left. split; reflexivity.
    + right. split; [reflexivity |].
      destruct (prop data "detail"); (split; [reflexivity | eexists; reflexivity]).
  - right. split; [reflexivity |].
    destruct (response_ok status); simpl; (split; [reflexivity | eexists; reflexivity]).
Qed.

(** *** What holds between events *)

Lemma mounted_invariant : invariant mounted.
Proof.
  unfold invariant. simpl. repeat split; try lia; discriminate.
Qed.

Lemma select_invariant (f : File) (st : State) (aw : bool) (nav : Navigation) :
  invariant {| state := st; awaiting := aw; route := nav |} ->
  invariant {| state := handleFileSelect f st; awaiting := aw; route := nav |}.
Proof.
  intros (Hf & Ha & Hp & Hw). unfold invariant. simpl in *.
  destruct (handleFileSelect_frame f st) as (Eu & Ep & _). rewrite Eu, Ep.
  repeat split; try assumption; try apply Hp.
  intros g Hg.
  destruct (handleFileSelect_cases f st) as [(Hacc & E & _) | (_ & E & _)];
    rewrite E in Hg.
  - injection Hg as <-. exact Hacc.
  - apply Hf. exact Hg.
Qed.

Lemma step_invariant (rt : Runtime) (pg : Page) (ev : Event) :
  invariant pg -> invariant (fst (step rt pg ev)).
Proof.
  intros Hinv. destruct pg as [st aw nav]. pose proof Hinv as (Hf & Ha & Hp & Hw).
  simpl in Hf, Ha, Hp, Hw. unfold step. simpl state. simpl awaiting. simpl route.
  destruct ev.
  - destruct (uploading st); [exact Hinv |].
    destruct files as [[| first rest] |]; simpl; try exact Hinv.
    apply select_invariant, Hinv.
  - exact Hinv.
  - exact Hinv.
  - destruct files as [| droppedFile rest]; simpl; [exact Hinv |].
    apply (select_invariant droppedFile (setIsDragging false st) aw nav). exact Hinv.
  - destruct (has_file st && negb (uploading st)); [| exact Hinv].
    unfold invariant. simpl. repeat split; try assumption; try apply Hp. discriminate.
  - destruct (negb (has_file st) || uploading st); [exact Hinv |].
    unfold handleUpload_start. destruct (file st) as [f |] eqn:Ef; [| exact Hinv].
    unfold invariant. simpl. rewrite Ef. repeat split; try lia. exact Hf.
  - destruct aw; [| exact Hinv].
    unfold invariant. simpl. repeat split; try assumption; lia.
  - destruct aw; [| exact Hinv].
    destruct (handleUpload_finish rt out st) as [st1 nav1] eqn:E.
    assert (E1 : st1 = fst (handleUpload_finish rt out st)) by (rewrite E; reflexivity).
    unfold invariant. simpl.
    destruct (finish_cases rt out st) as [(_ & Es) | (_ & _ & msg & Es)];
      rewrite Es in E1; subst st1; simpl; repeat split; try lia; try exact Hf;
      discriminate.
Qed.

Lemma upload_run_cons (rt : Runtime) (pg : Page) (ev : Event) (rest : list Event) :
  run rt pg (ev :: rest) =
    (fst (run rt (fst (step rt pg ev)) rest),
     (snd (step rt pg ev) ++ snd (run rt (fst (step rt pg ev)) rest))%list).
Proof.
  simpl. destruct (step rt pg ev) as [pg1 reqs1].
  simpl. destruct (run rt pg1 rest) as [pg2 reqs2]. reflexivity.
Qed.


Lemma step_requests (rt : Runtime) (pg : Page) (ev : Event) :
  snd (step rt pg ev) = []
  \/ (exists f, file (state pg) = Some f /\ uploading (state pg) = false
                /\ snd (step rt pg ev)
                   = [{| up_url := "http://localhost:8000/api/documents/upload";
                         up_method := "POST"; up_file := f |}]).
Proof.
  unfold step. destruct ev; try (left; reflexivity).
  - destruct (uploading (state pg)); left; reflexivity.
  - destruct (has_file (state pg) && negb (uploading (state pg))); left; reflexivity.
  - destruct (uploading (state pg)) eqn:Eu; [rewrite orb_true_r; left; reflexivity |].
    destruct (negb (has_file (state pg))); [left; reflexivity |]. simpl.
    unfold handleUpload_start. destruct (file (state pg)) as [f |];
      [right; exists f; repeat split | left; reflexivity].
  - destruct (awaiting pg); left; reflexivity.
  - destruct (awaiting pg); [| left; reflexivity].
    destruct (handleUpload_finish rt out (state pg)). left. reflexivity.
Qed.

(** Whatever the user does at the upload page, every upload it sends is
    a POST of a file that passed [handleFileSelect]: its name, lower-cased,
    ends in [.pdf] and its size is at most 52428800 bytes. *)
Theorem uploaded_files_are_accepted (rt : Runtime) (evs : list Event) :
  Forall (fun r => up_method r = "POST"
                   /\ (exists stem, toLowerCase (name (up_file r)) = stem ++ ".pdf")
                   /\ size (up_file r) <= 52428800)
    (snd (run rt mounted evs)).
Proof.
  assert (H : forall pg, invariant pg ->
                Forall (fun r => up_method r = "POST" /\ accepted (up_file r) = true)
                  (snd (run rt pg evs))).
  { induction evs as [| ev rest IH]; intros pg Hinv; [constructor |].
    rewrite upload_run_cons. simpl snd. apply Forall_app. split.
    - destruct (step_requests rt pg ev) as [-> | (f & Ef & _ & ->)]; constructor;
        [| constructor].
      split; [reflexivity |]. simpl. apply (proj1 Hinv). exact Ef.
    - apply IH, step_invariant, Hinv. }
  eapply Forall_impl; [| exact (H mounted mounted_invariant)].
  intros r [Hm Hacc]. split; [exact Hm |].
  unfold accepted in Hacc. apply andb_true_iff in Hacc. destruct Hacc as [Hn Hs].
  split; [apply endsWith_spec; exact Hn | apply Z.leb_le; exact Hs].
Qed.

Lemma ticks_progress (n : nat) (st : State) :
  0 <= uploadProgress st <= 90 ->
  uploadProgress (Nat.iter n progress_tick st)
    = Z.min (uploadProgress st + 10 * Z.of_nat n) 90
  /\ file (Nat.iter n progress_tick st) = file st
  /\ uploading (Nat.iter n progress_tick st) = uploading st
  /\ error (Nat.iter n progress_tick st) = error st.
Proof.
  intros Hp. induction n as [| n IH].
  - simpl. repeat split. lia.
  - rewrite Nat2Z.inj_succ, !Nat.iter_succ. destruct IH as (Ep & Ef & Eu & Ee).
    set (st' := Nat.iter n progress_tick st) in *.
    unfold progress_tick, setUploadProgress.
    cbn [uploadProgress file uploading error]. rewrite Ep.
    repeat split; try assumption. lia.
Qed.



(** *** How an upload ends *)

(** One call of [handleUpload] with a file chosen sends that file and
    always ends with [uploading] cleared and the file still chosen.  It
    ends without an error and at 100 exactly when the response has an ok
    status and a JSON body, and then asks for the page of the document
    whose id the body carries; in every other case it ends with an error
    message, the progress back at 0 and no navigation. *)
Theorem upload_ends_in_success_or_error
    (rt : Runtime) (ticks : nat) (out : FetchOutcome) (st : State) (f : File) :
  file st = Some f ->
  let result := handleUpload rt ticks out st in
  fst result = Some {| up_url := "http://localhost:8000/api/documents/upload";
                       up_method := "POST"; up_file := f |}
  /\ uploading (fst (snd result)) = false
  /\ file (fst (snd result)) = Some f
  /\ (error (fst (snd result)) = None <-> succeeded out = true)
  /\ (succeeded out = true -> uploadProgress (fst (snd result)) = 100)
  /\ (succeeded out = false ->
      uploadProgress (fst (snd result)) = 0 /\ snd (snd result) = Stay)
  /\ (forall status data v,
        out = Responded status (Some data) -> response_ok status = true ->
        prop data "id" = Some v -> snd (snd result) = Push v).
Proof.
  intros Hf result. unfold result, handleUpload, handleUpload_start. rewrite Hf.
  set (st1 := setUploadProgress 0 (setError None (setUploading true st))).
  destruct (ticks_progress ticks st1) as (_ & Ef & _ & Ee); [simpl; lia |].
  set (st2 := Nat.iter ticks progress_tick st1) in *.
  cbn [fst snd]. split; [reflexivity |].
  assert (Hnav : forall status data v,
            out = Responded status (Some data) -> response_ok status = true ->
            prop data "id" = Some v -> snd (handleUpload_finish rt out st2) = Push v).
  { intros status data v -> Hok Hid. unfold handleUpload_finish.
    rewrite Hok, Hid. reflexivity. }
  destruct (finish_cases rt out st2) as [(Hs & E) | (Hs & Hn & msg & E)];
    rewrite E, Hs; cbn [uploading file error uploadProgress setUploading
                          setUploadProgress setError];
    rewrite Ef.
  - rewrite Ee. repeat split; try reflexivity; try discriminate; try exact Hf;
      exact Hnav.
  - repeat split; try reflexivity; try discriminate; try exact Hf; try exact Hn;
      exact Hnav.
Qed.

Lemma upload_ends_in_success_or_error_witness :
  let rt := mkRuntime "Failed to fetch" "Unexpected token" "Cannot read properties of null"
              (fun _ => "[object Object]") in
  let report := mkFile "report.pdf" 2048 in
  let st := setFile (Some report) initial in
  let result := handleUpload rt 3 (Responded 200 (Some (JObj [("id", JNum (inject_Z 7))]))) st in
  file st = Some report
  /\ uploading (fst (snd result)) = false
  /\ uploadProgress (fst (snd result)) = 100
  /\ snd (snd result) = Push (num 7).
Proof.
  intros rt report st result.
  assert (Hf : file st = Some report) by reflexivity.
  destruct (upload_ends_in_success_or_error rt 3
              (Responded 200 (Some (JObj [("id", JNum (inject_Z 7))]))) st report Hf)
    as (_ & Hu & _ & _ & Hp & _ & Hn).
  split; [exact Hf |]. split; [exact Hu |]. split; [exact (Hp eq_refl) |].
  exact (Hn 200 _ (num 7) eq_refl eq_refl eq_refl).
Defined.

(** The message shown for a response that is not ok and whose body is a
    JSON object: its [detail] when that is a non-empty string, and
    "Upload failed" when there is no [detail] or a falsy one. *)
Theorem upload_error_is_detail
    (rt : Runtime) (status : Z) (props : list (string * json)) (st : State) :
  response_ok status = false ->
  let st' := fst (handleUpload_finish rt (Responded status (Some (JObj props))) st) in
  (forall s, assoc "detail" props = Some (JStr s) -> s <> "" -> error st' = Some s)
  /\ (truthy (assoc "detail" props) = false -> error st' = Some "Upload failed").
Proof.
  intros Hok st'. unfold st', handleUpload_finish. rewrite Hok. simpl. split.
  - intros s E Hs. rewrite E. unfold or. simpl.
    apply str_falsy_false in Hs. unfold str_falsy in Hs. rewrite Hs. reflexivity.
  - intros Hf. unfold or. rewrite Hf. reflexivity.
Qed.

Lemma upload_error_is_detail_witness :
  let rt := mkRuntime "Failed to fetch" "Unexpected token" "Cannot read properties of null"
              (fun _ => "[object Object]") in
  let st := setUploading true (setFile (Some (mkFile "report.pdf" 2048)) initial) in
  response_ok 400 = false
  /\ error (fst (handleUpload_finish rt
                   (Responded 400 (Some (JObj [("detail", JStr "Only PDF files are allowed")])))
                   st))
     = Some "Only PDF files are allowed".
Proof.
  intros rt st.
  assert (Hok : response_ok 400 = false) by reflexivity.
  split; [exact Hok |].
  apply (proj1 (upload_error_is_detail rt 400
                  [("detail", JStr "Only PDF files are allowed")] st Hok));
    [reflexivity | discriminate].
Defined.

(** A selection that is rejected does not unselect: the file chosen
    before stays chosen next to the error message, and the upload button
    then sends that earlier file and clears the message.  After
    [removeFile] there is nothing to send. *)
Theorem rejected_selection_keeps_earlier_file (earlier rejected : File) (st : State) :
  file st = Some earlier -> accepted rejected = false ->
  file (handleFileSelect rejected st) = Some earlier
  /\ error (handleFileSelect rejected st) <> None
  /\ (exists st1,
        handleUpload_start (handleFileSelect rejected st)
          = Some ({| up_url := "http://localhost:8000/api/documents/upload";
                     up_method := "POST"; up_file := earlier |}, st1)
        /\ error st1 = None)
  /\ handleUpload_start (removeFile st) = None.
Proof.
  intros Hf Hrej.
  destruct (handleFileSelect_cases rejected st) as [(Hacc & _) | (_ & Ef & Ee)];
    [congruence |].
  rewrite Ef, Hf. split; [reflexivity |]. split; [exact Ee |].
  split; [| reflexivity].
  unfold handleUpload_start. rewrite Ef, Hf. eexists. split; reflexivity.
Qed.

Lemma rejected_selection_keeps_earlier_file_witness :
  let earlier := mkFile "report.pdf" 2048 in
  let rejected := mkFile "notes.txt" 10 in
  let st := setFile (Some earlier) initial in
  file st = Some earlier /\ accepted rejected = false
  /\ file (handleFileSelect rejected st) = Some earlier
  /\ error (handleFileSelect rejected st) = Some "Only PDF files are supported".
Proof.
  intros earlier rejected st.
  assert (Hf : file st = Some earlier) by reflexivity.
  assert (Hr : accepted rejected = false) by reflexivity.
  split; [exact Hf | split; [exact Hr |]].
  split; [| reflexivity].
  exact (proj1 (rejected_selection_keeps_earlier_file earlier rejected st Hf Hr)).
Defined.

(** *** The size shown for the chosen file *)

Lemma nearest_bounds (num den : Z) :
  0 < den ->
  2 * den * nearest num den - den <= 2 * num < 2 * den * nearest num den + den.
Proof.
  intros Hd. unfold nearest.
  pose proof (Z.div_mod (2 * num + den) (2 * den)) as Hdm.
  pose proof (Z.mod_pos_bound (2 * num + den) (2 * den)) as Hb.
  lia.
Qed.

(** [formatFileSize] picks the unit by the thresholds 1024 and 1048576.
    Below 1024 it shows the bytes themselves.  From there, for sizes that
    a double holds exactly, it shows the tenths of a KB, or the hundredths
    of a MB, nearest to the size (within half a step), so the number shown
    is at least 1.0 and, in KB, at most 1024.0. *)
Theorem formatFileSize_nearest (bytes : Z) :
  (bytes < 1024 -> formatFileSize bytes = integer_string bytes ++ " B")
  /\ (1024 <= bytes < 1048576 ->
      exists tenths,
        formatFileSize bytes = decimals 1 tenths ++ " KB"
        /\ 10 <= tenths <= 10240
        /\ 1024 * tenths - 512 <= 10 * bytes < 1024 * tenths + 512)
  /\ (1048576 <= bytes < 2 ^ 53 ->
      exists hundredths,
        formatFileSize bytes = decimals 2 hundredths ++ " MB"
        /\ 100 <= hundredths
        /\ 1048576 * hundredths - 524288 <= 100 * bytes
           < 1048576 * hundredths + 524288).
Proof.
  unfold formatFileSize. change (1024 * 1024) with 1048576.
  split; [| split].
  - intros H. apply Z.ltb_lt in H. rewrite H. reflexivity.
  - intros [H1 H2]. apply Z.ltb_ge in H1. apply Z.ltb_lt in H2. rewrite H1, H2.
    apply Z.ltb_ge in H1. apply Z.ltb_lt in H2.
    exists (nearest (bytes * 10 ^ Z.of_nat 1) 1024). split; [reflexivity |].
    change (10 ^ Z.of_nat 1) with 10.
    pose proof (nearest_bounds (bytes * 10) 1024 ltac:(lia)) as Hn. lia.
  - intros [H1 _]. assert (H0 : 1024 <= bytes) by lia.
    apply Z.ltb_ge in H0. apply Z.ltb_ge in H1. rewrite H0, H1.
    apply Z.ltb_ge in H1.
    exists (nearest (bytes * 10 ^ Z.of_nat 2) 1048576). split; [reflexivity |].
    change (10 ^ Z.of_nat 2) with 100.
    pose proof (nearest_bounds (bytes * 100) 1048576 ltac:(lia)) as Hn. lia.
Qed.

Lemma formatFileSize_nearest_witness :
  1024 <= 1536 < 1048576
  /\ exists tenths,
       formatFileSize 1536 = decimals 1 tenths ++ " KB"
       /\ 10 <= tenths <= 10240
       /\ 1024 * tenths - 512 <= 10 * 1536 < 1024 * tenths + 512.
Proof.
  assert (H : 1024 <= 1536 < 1048576) by lia.
  split; [exact H |].
  exact (proj1 (proj2 (formatFileSize_nearest 1536)) H).
Defined.

Example formatFileSize_examples :
  formatFileSize 1023 = "1023 B"
  /\ formatFileSize 1280 = "1.3 KB"
  /\ formatFileSize 1048575 = "1024.0 KB"
  /\ formatFileSize 52428800 = "50.00 MB".
Proof. repeat split; reflexivity. Qed.

End Uploading.

(** ** Status, listing and navigation *)

Module Pages.
Import JS StringFacts Documents.

Lemma is_str_other (v : jsval) (a b : string) :
  a <> b -> is_str v a = true -> is_str v b = false.
Proof.
  intros Hab Ha. apply is_str_true in Ha. subst v. rewrite is_str_str.
  apply String.eqb_neq. exact Hab.
Qed.

Lemma Home_chat_iff (doc : Home.Document) :
  offers ChatLink (Home.card_actions doc) = true <-> Home.status doc = str "completed".
Proof.
  unfold Home.card_actions. rewrite !offers_app, !offers_shown. simpl.
  rewrite !andb_false_r, andb_true_r, !orb_false_r. apply is_str_true.
Qed.

Lemma Detail_chat_iff (doc : json) :
  offers ChatLink (Detail.header_actions doc) = true <-> Detail.status doc = str "completed".
Proof.
  unfold Detail.header_actions. rewrite offers_app, !offers_shown. simpl.
  rewrite andb_false_r, andb_true_r. simpl. apply is_str_true.
Qed.

Lemma polls_iff (doc : json) :
  doc <> JNull ->
  (Detail.polls (Some doc) = true <->
     (Detail.status doc = str "processing" \/ Detail.status doc = str "pending")).
Proof.
  intros Hn. unfold Detail.polls.
  destruct doc; try congruence; rewrite orb_true_iff, !is_str_true; reflexivity.
Qed.

(** On the cards of the list and in the header of the document page, the
    chat link is offered exactly for a completed document and never
    together with the retry button; every card offers View and Delete.  A
    document page is polled exactly while its document is processing or
    pending, hence never while the chat link is offered, and together with
    the retry button exactly when pending. *)
Theorem chat_retry_and_polling (card : Home.Document) (doc : json) :
  doc <> JNull ->
  (offers ChatLink (Home.card_actions card) = true <-> Home.status card = str "completed")
  /\ (offers ChatLink (Home.card_actions card) = true ->
      offers RetryButton (Home.card_actions card) = false)
  /\ offers ViewLink (Home.card_actions card) = true
  /\ offers DeleteButton (Home.card_actions card) = true
  /\ (offers ChatLink (Detail.header_actions doc) = true <->
        Detail.status doc = str "completed")
  /\ (offers ChatLink (Detail.header_actions doc) = true ->
      offers RetryButton (Detail.header_actions doc) = false
      /\ Detail.polls (Some doc) = false)
  /\ (Detail.polls (Some doc) = true <->
        (Detail.status doc = str "processing" \/ Detail.status doc = str "pending"))
  /\ (Detail.polls (Some doc) = true
      /\ offers RetryButton (Detail.header_actions doc) = true
      <-> Detail.status doc = str "pending").
Proof.
  intros Hn. split; [apply Home_chat_iff |]. split.
  { intros H. apply Home_chat_iff in H. apply not_true_is_false. intros R.
    apply Home_retry_iff in R. rewrite H in R. destruct R; discriminate. }
  split.
  { reflexivity. }
  split.
  { unfold Home.card_actions. rewrite !offers_app, !offers_shown. simpl.
    rewrite !orb_true_r. reflexivity. }
  split; [apply Detail_chat_iff |]. split.
  { intros H. apply Detail_chat_iff in H. split; apply not_true_is_false; intros R.
    - apply Detail_retry_iff in R. rewrite H in R. destruct R; discriminate.
    - apply (polls_iff doc Hn) in R. rewrite H in R. destruct R; discriminate. }
  split; [apply polls_iff, Hn |].
  rewrite (polls_iff doc Hn), Detail_retry_iff. split.
  - intros [[P | P] [R | R]]; try assumption; rewrite P in R; discriminate.
  - intros H. split; right; exact H.
Qed.

Lemma chat_retry_and_polling_witness :
  let doc := JObj [("id", JNum (inject_Z 4)); ("status", JStr "pending")] in
  doc <> JNull
  /\ Detail.polls (Some doc) = true
  /\ offers RetryButton (Detail.header_actions doc) = true.
Proof.
  intros doc.
  assert (Hn : doc <> JNull) by discriminate.
  split; [exact Hn |].
  destruct (chat_retry_and_polling
              {| Home.id := undefined; Home.filename := undefined;
                 Home.upload_date := undefined; Home.status := undefined;
                 Home.total_pages := undefined; Home.text_chunks := undefined;
                 Home.images := undefined; Home.tables := undefined |} doc Hn)
    as (_ & _ & _ & _ & _ & _ & _ & H).
  apply H. reflexivity.
Defined.

(** A status that is none of completed, processing, error and pending
    (a missing one included) is shown like a pending one, with the pending
    badge on both pages and the spinning icon on the document page, yet it
    gets neither the retry button nor the chat link, and the document page
    does not poll for it. *)
Theorem unknown_status_looks_pending (card : Home.Document) (doc : json) :
  (Home.status card <> str "completed" -> Home.status card <> str "processing" ->
   Home.status card <> str "error" -> Home.status card <> str "pending" ->
   Home.getStatusClass (Home.status card) = "status-pending"
   /\ Home.card_actions card = [ViewLink; DeleteButton])
  /\ (Detail.status doc <> str "completed" -> Detail.status doc <> str "processing" ->
      Detail.status doc <> str "error" -> Detail.status doc <> str "pending" ->
      Detail.getStatusClass (Detail.status doc) = "status-pending"
      /\ Detail.getStatusIcon (Detail.status doc) = Detail.SpinningRefresh
      /\ Detail.header_actions doc = []
      /\ Detail.polls (Some doc) = false).
Proof.
  assert (Hno : forall v lit, v <> str lit -> is_str v lit = false).
  { intros v lit H. apply not_true_is_false. intros E. apply is_str_true in E.
    contradiction. }
  split.
  - intros Hc Hp He Hq.
    unfold Home.getStatusClass, Home.card_actions.
    rewrite (Hno _ _ Hc), (Hno _ _ Hp), (Hno _ _ He), (Hno _ _ Hq). split; reflexivity.
  - intros Hc Hp He Hq.
    unfold Detail.getStatusClass, Detail.getStatusIcon, Detail.header_actions, Detail.polls.
    rewrite (Hno _ _ Hc), (Hno _ _ Hp), (Hno _ _ He), (Hno _ _ Hq).
    repeat split. destruct doc; reflexivity.
Qed.

Lemma unknown_status_looks_pending_witness :
  let doc := JObj [("id", JNum (inject_Z 4)); ("status", JStr "queued")] in
  Detail.status doc <> str "completed"
  /\ Detail.getStatusClass (Detail.status doc) = "status-pending"
  /\ Detail.header_actions doc = [].
Proof.
  intros doc.
  assert (Hc : Detail.status doc <> str "completed") by discriminate.
  split; [exact Hc |].
  destruct (proj2 (unknown_status_looks_pending
                     {| Home.id := undefined; Home.filename := undefined;
                        Home.upload_date := undefined; Home.status := undefined;
                        Home.total_pages := undefined; Home.text_chunks := undefined;
                        Home.images := undefined; Home.tables := undefined |} doc)
              Hc ltac:(discriminate) ltac:(discriminate) ltac:(discriminate))
    as (Hclass & _ & Hact & _).
  split; [exact Hclass | exact Hact].
Defined.

(** *** The listing *)

(** A listing that cannot be read shows as an empty library.  From the
    freshly mounted list page, a fetch that rejects, a body that is not
    JSON, a [null] body, and a body whose [documents] is missing, falsy or
    an empty array all end the loading state with the "No documents yet"
    view; and a failed refresh keeps the documents already listed. *)
Theorem unreadable_listing_shows_empty (out : FetchOutcome) :
  (out = NetworkError
   \/ (exists status, out = Responded status None)
   \/ (exists status, out = Responded status (Some JNull))
   \/ (exists status data v,
         out = Responded status (Some data) /\ prop data "documents" = Some v
         /\ (truthy v = false \/ v = Some (JArr [])))) ->
  (exists st', Home.fetchDocuments out Home.initial = Some st'
               /\ Home.render st' = Home.EmptyView)
  /\ (out = NetworkError \/ (exists status, out = Responded status None)
      \/ (exists status, out = Responded status (Some JNull)) ->
      forall st, Home.fetchDocuments out st
                 = Some {| Home.documents := Home.documents st; Home.loading := false |}).
Proof.
  intros H. split.
  - destruct H as [-> | [[status ->] | [[status ->] | (status & data & v & -> & Hp & Hv)]]];
      try (eexists; split; reflexivity).
    unfold Home.fetchDocuments. rewrite Hp.
    destruct Hv as [Hv | ->].
    + unfold Home.documents_of. rewrite Hv. simpl. eexists. split; reflexivity.
    + eexists. split; reflexivity.
  - intros [-> | [[status ->] | [status ->]]] st; reflexivity.
Qed.

Lemma unreadable_listing_shows_empty_witness :
  let out := Responded 500 (Some (JObj [("detail", JStr "Internal Server Error")])) in
  exists st', Home.fetchDocuments out Home.initial = Some st'
              /\ Home.render st' = Home.EmptyView.
Proof.
  intros out.
  apply (proj1 (unreadable_listing_shows_empty out
    (or_intror (or_intror (or_intror
       (ex_intro _ 500 (ex_intro _ (JObj [("detail", JStr "Internal Server Error")])
          (ex_intro _ undefined
             (conj eq_refl (conj eq_refl (or_introl eq_refl))))))))))).
Defined.

(** *** The statistics of the document page *)

(** The statistics card reads [document.images.length] and
    [document.tables.length].  For a stored body whose [images] or
    [tables] is missing or [null] that read throws, so the render of the
    document view fails; this is the case of every error payload the page
    stores as its document.  For arrays the counts are their lengths. *)
Theorem stat_counts_need_arrays (doc : json) :
  doc <> JNull ->
  (Detail.stat_counts doc = None <->
     exists v, (prop doc "images" = Some v \/ prop doc "tables" = Some v)
               /\ (v = undefined \/ v = null))
  /\ (forall images tables,
        prop doc "images" = Some (Some (JArr images)) ->
        prop doc "tables" = Some (Some (JArr tables)) ->
        Detail.stat_counts doc
          = Some (num (Z.of_nat (List.length images)), num (Z.of_nat (List.length tables))))
  /\ (forall st status props,
        assoc "images" props = None ->
        Detail.render (Detail.fetchDocument (Responded status (Some (JObj props))) st)
          = Detail.DocumentView (JObj props) (Detail.header_actions (JObj props))
        /\ Detail.stat_counts (JObj props) = None).
Proof.
  intros Hn.
  assert (Hlen : forall v, Detail.length_of v = None <-> (v = undefined \/ v = null)).
  { intros v. unfold undefined, null.
    destruct v as [[| | | | |] |]; simpl; split; intros H;
      try discriminate; try (destruct H; discriminate); auto. }
  split; [| split].
  - unfold Detail.stat_counts.
    destruct (prop doc "images") as [im |] eqn:Ei;
      [| destruct doc; try congruence; discriminate].
    destruct (prop doc "tables") as [tb |] eqn:Et;
      [| destruct doc; try congruence; discriminate].
    destruct (Detail.length_of im) eqn:Li.
    + destruct (Detail.length_of tb) eqn:Lt.
      * split; [discriminate |]. intros (v & [E | E] & Hv); injection E as <-;
          apply Hlen in Hv; congruence.
      * split; [| reflexivity]. intros _. exists tb. split; [right; reflexivity |].
        apply Hlen. exact Lt.
    + split; [| reflexivity]. intros _. exists im. split; [left; reflexivity |].
      apply Hlen. exact Li.
  - intros images tables Ei Et. unfold Detail.stat_counts. rewrite Ei, Et. reflexivity.
  - intros st status props Ei. split; [reflexivity |].
    unfold Detail.stat_counts. simpl. rewrite Ei. reflexivity.
Qed.

Lemma stat_counts_need_arrays_witness :
  let payload := JObj [("detail", JStr "Document not found")] in
  payload <> JNull /\ Detail.stat_counts payload = None.
Proof.
  intros payload.
  assert (Hn : payload <> JNull) by discriminate.
  split; [exact Hn |].
  exact (proj2 (proj2 (proj2 (stat_counts_need_arrays payload Hn))
                  Detail.initial 404 [("detail", JStr "Document not found")] eq_refl)).
Defined.

(** *** The navigation bar *)

(** At most one link of the navigation bar is active.  Documents is
    active on [/] only, Upload on [/upload] only, Chat on every path that
    starts with [/chat]; on any other path, that of a document page
    included, and without a path, none is. *)
Theorem one_active_link (pathname : option string) :
  (List.length (Layout.active_links pathname) <= 1)%nat
  /\ (forall path, pathname = Some path ->
        (Layout.active_links pathname = ["/"] <-> path = "/")
        /\ (Layout.active_links pathname = ["/upload"] <-> path = "/upload")
        /\ (Layout.active_links pathname = ["/chat"] <-> startsWith path "/chat" = true))
  /\ Layout.active_links None = [].
Proof.
  assert (Hchat : forall path, Layout.isActive (Some path) "/chat" = startsWith path "/chat").
  { intros path. unfold Layout.isActive. simpl.
    destruct (path =? "/chat")%string eqn:E; [| reflexivity].
    apply String.eqb_eq in E. subst. reflexivity. }
  assert (Hother : forall path href,
            href <> "/chat" -> Layout.isActive (Some path) href = (path =? href)%string).
  { intros path href H. unfold Layout.isActive.
    apply String.eqb_neq in H. rewrite H. simpl. apply orb_false_r. }
  assert (Hlinks : forall path,
            Layout.active_links (Some path) =
              ((if (path =? "/")%string then ["/"] else [])
                 ++ (if (path =? "/upload")%string then ["/upload"] else [])
                 ++ (if startsWith path "/chat" then ["/chat"] else []))%list).
  { intros path. unfold Layout.active_links, Layout.navLinks. cbn [filter].
    rewrite Hchat, !Hother by discriminate.
    destruct (path =? "/")%string, (path =? "/upload")%string,
      (startsWith path "/chat"); reflexivity. }
  assert (Hexcl : forall path,
            ((path =? "/")%string = true ->
               (path =? "/upload")%string = false /\ startsWith path "/chat" = false)
            /\ ((path =? "/upload")%string = true -> startsWith path "/chat" = false)).
  { intros path. split; intros E; apply String.eqb_eq in E; subst; split || idtac;
      reflexivity. }
  split; [| split].
  - destruct pathname as [path |]; [| simpl; lia].
    rewrite Hlinks. destruct (Hexcl path) as [H1 H2].
    destruct (path =? "/")%string eqn:E1.
    + destruct (H1 eq_refl) as [-> ->]. simpl. lia.
    + destruct (path =? "/upload")%string eqn:E2.
      * rewrite (H2 eq_refl). simpl. lia.
      * destruct (startsWith path "/chat"); simpl; lia.
  - intros path ->. rewrite Hlinks. destruct (Hexcl path) as [H1 H2].
    destruct (path =? "/")%string eqn:E1.
    + destruct (H1 eq_refl) as [-> ->]. apply String.eqb_eq in E1. subst.
      repeat split; intros; try discriminate; reflexivity.
    + apply String.eqb_neq in E1.
      destruct (path =? "/upload")%string eqn:E2.
      * rewrite (H2 eq_refl). apply String.eqb_eq in E2. subst.
        repeat split; intros; try discriminate; reflexivity.
      * apply String.eqb_neq in E2.
        destruct (startsWith path "/chat"); simpl;
          repeat split; intros; try discriminate; try contradiction; try reflexivity;
          congruence.
  - reflexivity.
Qed.

Lemma one_active_link_witness :
  Layout.active_links (Some "/chat") = ["/chat"]
  /\ Layout.active_links (Some "/documents/5") = [].
Proof.
  split; [| reflexivity].
  apply (proj2 (proj2 (proj1 (proj2 (one_active_link (Some "/chat"))) "/chat" eq_refl))).
  reflexivity.
Defined.

Lemma documents_of_items_null (items : list json) :
  Home.documents_of_items items = None <-> In JNull items.
Proof.
  induction items as [| item rest IH]; simpl; [split; [discriminate | contradiction] |].
  destruct item; simpl;
    try (destruct (Home.documents_of_items rest);
         [split; [discriminate | intros [H | H]; [discriminate | apply IH in H; discriminate]]
         | split; [intros _; right; apply IH; reflexivity | reflexivity]]).
  split; [intros _; left; reflexivity | reflexivity].
Qed.

Lemma documents_of_items_status (items : list json) :
  forall docs,
    Home.documents_of_items items = Some docs ->
    Forall2 (fun item doc => prop item "status" = Some (Home.status doc)) items docs.
Proof.
  induction items as [| item rest IH]; intros docs H; simpl in H.
  - injection H as <-. constructor.
  - destruct (Home.document_of item) as [d |] eqn:Ed; [| discriminate].
    destruct (Home.documents_of_items rest) as [ds |]; [| discriminate].
    injection H as <-. constructor; [| apply IH; reflexivity].
    unfold Home.document_of in Ed. destruct item; try discriminate;
      injection Ed as <-; reflexivity.
Qed.

(** A listing whose [documents] is an array without [null] is shown
    whole: the list view has one card per element, in the order of the
    response, each with the status of its element; with an empty array it
    is the empty view.  The array can be read as cards unless it holds a
    [null]. *)
Theorem listing_shows_every_document (status : Z) (items : list json) (st : Home.State) :
  (Home.documents_of_items items = None <-> In JNull items)
  /\ ((forall item, In item items -> item <> JNull) ->
      exists docs,
        Home.fetchDocuments (Responded status (Some (JObj [("documents", JArr items)]))) st
          = Some {| Home.documents := docs; Home.loading := false |}
        /\ List.length docs = List.length items
        /\ Forall2 (fun item doc => prop item "status" = Some (Home.status doc)) items docs
        /\ (items <> [] ->
            Home.render {| Home.documents := docs; Home.loading := false |}
              = Home.ListView (map (fun doc => (doc, Home.card_actions doc)) docs))).
Proof.
  split; [apply documents_of_items_null |].
  intros Hnn.
  destruct (Home.documents_of_items items) as [docs |] eqn:E.
  - pose proof (documents_of_items_status items docs E) as Hst.
    exists docs. split; [| split; [| split]].
    + unfold Home.fetchDocuments, Home.documents_of. simpl. rewrite E. reflexivity.
    + symmetry. exact (Forall2_length Hst).
    + exact Hst.
    + intros Hne. unfold Home.render. simpl.
      destruct docs as [| d ds]; [| reflexivity].
      apply Forall2_length in Hst. destruct items; [congruence | discriminate].
  - apply documents_of_items_null in E. exfalso. exact (Hnn JNull E eq_refl).
Qed.

Lemma listing_shows_every_document_witness :
  let items := [ JObj [("id", JNum (inject_Z 1)); ("status", JStr "completed")];
                 JObj [("id", JNum (inject_Z 2)); ("status", JStr "error")] ] in
  (forall item, In item items -> item <> JNull)
  /\ exists docs,
       Home.fetchDocuments (Responded 200 (Some (JObj [("documents", JArr items)])))
         Home.initial
         = Some {| Home.documents := docs; Home.loading := false |}
       /\ List.length docs = 2%nat.
Proof.
  intros items.
  assert (Hnn : forall item, In item items -> item <> JNull).
  { intros item [<- | [<- | []]]; discriminate. }
  split; [exact Hnn |].
  destruct (proj2 (listing_shows_every_document 200 items Home.initial) Hnn)
    as (docs & E & Hl & _).
  exists docs. split; [exact E | exact Hl].
Defined.

End Pages.

(** ** The controls and the citations of the chat page *)

Module ChatControls.
Import JS Chat StringFacts SendMessage Session ChatInvariants.

(** Pressing Enter without Shift in the textarea does exactly what the
    send button does, in every state of the page; Enter with Shift and
    every other key send nothing and leave the page as it is. *)
Theorem enter_is_send (documentId : DocumentId) (pg : Page) (clk : Clock) :
  step documentId pg (KeyDown "Enter" false, clk) = step documentId pg (ClickSend, clk)
  /\ step documentId pg (KeyDown "Enter" true, clk) = (pg, [])
  /\ (forall key shiftKey, key <> "Enter" ->
        step documentId pg (KeyDown key shiftKey, clk) = (pg, [])).
Proof.
  unfold step, textarea_disabled, send_disabled. split; [| split].
  - destruct (loading (state pg) || negb (has_document documentId)) eqn:E.
    + rewrite <- orb_assoc, E, orb_true_r. reflexivity.
    + rewrite <- orb_assoc, E, orb_false_r. simpl.
      destruct (str_falsy (trim (input (state pg)))) eqn:Eb; [| reflexivity].
      unfold invoke_sendMessage, sendMessage_start. rewrite Eb. reflexivity.
  - destruct (loading (state pg) || negb (has_document documentId)); reflexivity.
  - intros key shiftKey Hk. apply String.eqb_neq in Hk. rewrite Hk.
    destruct (loading (state pg) || negb (has_document documentId)); reflexivity.
Qed.

Lemma enter_is_send_witness :
  let clk := mkClock 1 "t" in
  let pg := {| state := setInput "hello" initial; in_flight := None |} in
  "a" <> "Enter" /\ step (Some "3") pg (KeyDown "a" false, clk) = (pg, []).
Proof.
  intros clk pg.
  assert (Hk : "a" <> "Enter") by discriminate.
  split; [exact Hk |].
  exact (proj2 (proj2 (enter_is_send (Some "3") pg clk)) "a" false Hk).
Defined.

(** Every suggestion of the empty page can be sent as it is: on a page
    with a document, clicking a suggestion and then the send button issues
    one request whose message is that suggestion.  A click on a suggestion
    alone never sends. *)
Theorem suggestion_then_send (d : string) (i : nat) (s : string) (clk1 clk2 : Clock) :
  d <> "" -> nth_error suggestions i = Some s ->
  snd (run (Some d) mounted [(ClickSuggestion i, clk1); (ClickSend, clk2)])
    = [chat_request s null (Some d)]
  /\ field "message" (chat_request s null (Some d)) = str s
  /\ (forall documentId pg, snd (step documentId pg (ClickSuggestion i, clk1)) = []).
Proof.
  intros Hd Hs. apply str_falsy_false in Hd. split; [| split].
  - simpl. rewrite Hs. unfold send_disabled, has_document. rewrite Hd. simpl.
    do 4 (destruct i as [| i]; [injection Hs as <-; reflexivity |]).
    destruct i; discriminate.
  - reflexivity.
  - intros documentId pg. simpl.
    destruct (messages (state pg)), (nth_error suggestions i); reflexivity.
Qed.

Lemma suggestion_then_send_witness :
  let clk := mkClock 1 "t" in
  "3" <> "" /\ nth_error suggestions 2 = Some "Summarize the key findings"
  /\ snd (run (Some "3") mounted [(ClickSuggestion 2, clk); (ClickSend, clk)])
     = [chat_request "Summarize the key findings" null (Some "3")].
Proof.
  intros clk.
  assert (Hd : "3" <> "") by discriminate.
  assert (Hs : nth_error suggestions 2 = Some "Summarize the key findings") by reflexivity.
  split; [exact Hd | split; [exact Hs |]].
  exact (proj1 (suggestion_then_send "3" 2 _ clk clk Hd Hs)).
Defined.

(** *** Citations *)

Lemma source_of_not_null (item : json) :
  item <> JNull -> exists source, source_of item = Some source.
Proof.
  intros Hn. unfold source_of. destruct item; try congruence; eexists; reflexivity.
Qed.

Lemma is_card_renderSource (source : Source) (idx : nat) :
  is_card (renderSource source idx) = known_type source.
Proof.
  unfold renderSource, known_type.
  destruct (is_str (type source) "image"), (is_str (type source) "table"),
    (is_str (type source) "text"); reflexivity.
Qed.

Lemma render_sources_cards (items : list json) :
  (forall item, In item items -> item <> JNull) ->
  forall sidx,
  exists sources cards,
    Forall2 (fun item source => source_of item = Some source) items sources
    /\ render_sources sidx items = Some cards
    /\ List.length cards = List.length items
    /\ (forall i source, nth_error sources i = Some source ->
          nth_error cards i = Some (renderSource source (sidx + i)))
    /\ List.length (filter is_card cards) = List.length (filter known_type sources).
Proof.
  induction items as [| item rest IH]; intros Hnn sidx.
  - exists [], []. repeat split; try constructor. intros [| i] source H; discriminate.
  - destruct (source_of_not_null item (Hnn item (or_introl eq_refl))) as (source & Es).
    destruct (IH (fun x Hx => Hnn x (or_intror Hx)) (S sidx))
      as (sources & cards & Hf & Hr & Hl & Hn & Hc).
    exists (source :: sources), (renderSource source sidx :: cards).
    split; [constructor; assumption |].
    split; [cbn [render_sources]; rewrite Es, Hr; reflexivity |].
    split; [simpl; rewrite Hl; reflexivity |]. split.
    + intros [| i] src H; simpl in H.
      * injection H as <-. rewrite Nat.add_0_r. reflexivity.
      * simpl. rewrite (Hn i src H). f_equal. f_equal. lia.
    + cbn [filter]. rewrite is_card_renderSource.
      destruct (known_type source); simpl; rewrite Hc; reflexivity.
Qed.

Lemma render_sources_null (items : list json) :
  In JNull items -> forall sidx, render_sources sidx items = None.
Proof.
  induction items as [| item rest IH]; intros Hin sidx; [contradiction |].
  cbn [render_sources]. destruct Hin as [-> | Hin]; [reflexivity |].
  rewrite (IH Hin). destruct (source_of item); reflexivity.
Qed.

(** Under a message whose sources are an array without [null], the page
    shows one entry per source, in the order of the sources and keyed by
    position: the card of [renderSource] for a source of type text, image
    or table, and nothing for any other, so that the cards are as many as
    the sources of a known type.  Without sources ([undefined], [null] or
    an empty array) nothing is shown; a [null] among the sources makes the
    render throw. *)
Theorem citations_follow_sources (items : list json) :
  (items <> [] -> (forall item, In item items -> item <> JNull) ->
   exists sources cards,
     Forall2 (fun item source => source_of item = Some source) items sources
     /\ citations (Some (JArr items)) = Some (Cards cards)
     /\ List.length cards = List.length items
     /\ (forall i source, nth_error sources i = Some source ->
           nth_error cards i = Some (renderSource source i))
     /\ List.length (filter is_card cards) = List.length (filter known_type sources))
  /\ (In JNull items -> citations (Some (JArr items)) = Some RenderThrows)
  /\ citations undefined = Some NoCitations
  /\ citations null = Some NoCitations
  /\ citations (Some (JArr [])) = Some NoCitations.
Proof.
  split; [| split; [| repeat split]].
  - intros Hne Hnn.
    destruct (render_sources_cards items Hnn 0) as (sources & cards & Hf & Hr & Hl & Hn & Hc).
    exists sources, cards. repeat split; try assumption.
    destruct items; [congruence |]. unfold citations. rewrite Hr. reflexivity.
  - intros Hin. destruct items as [| item rest]; [contradiction |].
    unfold citations. rewrite (render_sources_null _ Hin). reflexivity.
Qed.

Lemma citations_follow_sources_witness :
  let items :=
    [ JObj [("type", JStr "text"); ("content", JStr "Revenue grew."); ("page", JNum (inject_Z 3))];
      JObj [("type", JStr "chart"); ("url", JStr "/uploads/c.png")];
      JObj [("type", JStr "table"); ("url", JStr "/uploads/t.png")] ] in
  items <> [] /\ (forall item, In item items -> item <> JNull)
  /\ exists cards,
       citations (Some (JArr items)) = Some (Cards cards)
       /\ List.length cards = 3%nat.
Proof.
  intros items.
  assert (Hne : items <> []) by discriminate.
  assert (Hnn : forall item, In item items -> item <> JNull).
  { intros item [<- | [<- | [<- | []]]]; discriminate. }
  split; [exact Hne | split; [exact Hnn |]].
  destruct (proj1 (citations_follow_sources items) Hne Hnn)
    as (sources & cards & _ & E & Hl & _).
  exists cards. split; [exact E | exact Hl].
Defined.

End ChatControls.
